(** * The OpenFlow learning switch of lib/learning-switch.c

    A shallow embedding of [lib/learning-switch.c] and the properties of its
    message dispatch, output policy, flow set-up decision and queue table.

    Conventions of the embedding.
    - An OpenFlow message is the byte string at [msg->data]; a field access
      such as [opi->in_port] reads the bytes of that field at its offset in
      the OpenFlow 1.0 wire layout, and [ntohs], [ntohl], [ntohll] decode
      them big-endian.  A read past the end of the byte string yields zero
      bytes.
    - Fixed-width C integers are [Z]; a conversion that can wrap is written
      out with [mod].
    - [time_now ()] is the argument [now] of the public entry points.
    - [struct rconn] is the sequence of buffers that [queue_tx] has handed to
      [rconn_send_with_limit], oldest first.  Whether the link accepts or
      drops a buffer is decided inside rconn, which this file does not model,
      and [queue_tx] itself only logs the outcome.
    - An outbound buffer is recorded as the call that builds it
      ([make_add_flow], [make_packet_out], ...), with the arguments of that
      call. *)

From Stdlib Require Import ZArith List Strings.Byte String Lia Bool.
From stdpp Require Import base option list gmap strings.
Import ListNotations.

Local Open Scope Z_scope.

(** ** Bytes and byte order *)

Definition byte_val (b : byte) : Z := Z.of_N (Byte.to_N b).

(** [len] bytes at offset [ofs]; bytes beyond the end of [d] read as zero. *)
Definition field (d : list byte) (ofs len : nat) : list byte :=
  map (fun i => nth (ofs + i)%nat d x00) (seq 0 len).

Definition u8 (d : list byte) (ofs : nat) : Z := byte_val (nth ofs d x00).

(** Big-endian decoding of a field held in network byte order. *)
Definition ntoh (bs : list byte) : Z :=
  fold_left (fun acc b => acc * 256 + byte_val b) bs 0.

Definition ntohs (bs : list byte) : Z := ntoh bs.
Definition ntohl (bs : list byte) : Z := ntoh bs.
Definition ntohll (bs : list byte) : Z := ntoh bs.

Definition UINT32_MAX : Z := 4294967295.
Definition uint16_t (z : Z) : Z := z mod 65536.
Definition uint32_t (z : Z) : Z := z mod 4294967296.
Definition size_t (z : Z) : Z := z mod 18446744073709551616.

(** ** openflow/openflow.h *)

(** Modelled from the spec: [openflow/openflow.h] is not part of the sources.
    Message types and reserved ports are the numbers of section 6 of the
    specification; the field offsets are those of the OpenFlow 1.0 wire
    layout (section 9 gives the 18-byte fixed prefix of packet-in). *)
Module OpenFlow.

Definition OFPT_ECHO_REQUEST : Z := 2.
Definition OFPT_ECHO_REPLY : Z := 3.
Definition OFPT_FEATURES_REQUEST : Z := 5.
Definition OFPT_FEATURES_REPLY : Z := 6.
Definition OFPT_SET_CONFIG : Z := 9.
Definition OFPT_PACKET_IN : Z := 10.
Definition OFPT_FLOW_REMOVED : Z := 11.
Definition OFPT_PACKET_OUT : Z := 13.
Definition OFPT_FLOW_MOD : Z := 14.

Definition OFPP_MAX : Z := 0xff00.
Definition OFPP_NORMAL : Z := 0xfffa.
Definition OFPP_FLOOD : Z := 0xfffb.
Definition OFPP_ALL : Z := 0xfffc.
Definition OFPP_CONTROLLER : Z := 0xfffd.
Definition OFPP_NONE : Z := 0xffff.

Definition OFPR_NO_MATCH : Z := 0.
Definition OFP_DEFAULT_MISS_SEND_LEN : Z := 128.
Definition OFP_MAX_PORT_NAME_LEN : nat := 16.

Definition OFPFW_DL_TYPE : Z := Z.shiftl 1 4.
Definition OFPFW_NW_PROTO : Z := Z.shiftl 1 5.
Definition OFPFW_TP_SRC : Z := Z.shiftl 1 6.
Definition OFPFW_TP_DST : Z := Z.shiftl 1 7.
Definition OFPFW_NW_SRC_MASK : Z := Z.shiftl 63 8.
Definition OFPFW_NW_DST_MASK : Z := Z.shiftl 63 14.

(** struct ofp_header: version, type, length, xid. *)
Definition sizeof_ofp_header : Z := 8.
Definition oh_type (oh : list byte) : Z := u8 oh 1.
Definition oh_length (oh : list byte) : list byte := field oh 2 2.

(** struct ofp_switch_features: header, datapath_id, n_buffers, n_tables,
    pad[3], capabilities, actions, ports[]. *)
Definition sizeof_ofp_switch_features : Z := 32.
Definition sizeof_ofp_phy_port : Z := 48.
Definition osf_datapath_id (osf : list byte) : list byte := field osf 8 8.
Definition osf_ports (osf : list byte) (i : nat) : list byte :=
  field osf (32 + 48 * i) 48.

(** struct ofp_phy_port: port_no, hw_addr[6], name[16], ... *)
Definition opp_port_no (opp : list byte) : list byte := field opp 0 2.
Definition opp_name (opp : list byte) : list byte :=
  field opp 8 OFP_MAX_PORT_NAME_LEN.

(** struct ofp_packet_in: header, buffer_id, total_len, in_port, reason,
    pad, data[]. *)
Definition offsetof_ofp_packet_in_data : Z := 18.
Definition opi_buffer_id (opi : list byte) : list byte := field opi 8 4.
Definition opi_in_port (opi : list byte) : list byte := field opi 14 2.
Definition opi_reason (opi : list byte) : Z := u8 opi 16.
Definition opi_data (opi : list byte) : list byte := skipn 18 opi.

Definition sizeof_ofp_flow_removed : Z := 88.

(** The actions this library builds: struct ofp_action_output (8 bytes)
    and struct ofp_action_enqueue (16 bytes); struct ofp_action_header is
    8 bytes. *)
Inductive ofp_action : Type :=
| OFPAT_OUTPUT (port : Z)
| OFPAT_ENQUEUE (port : Z) (queue_id : Z).

Definition sizeof_ofp_action_header : Z := 8.
Definition sizeof_ofp_action_output : Z := 8.
Definition sizeof_ofp_action_enqueue : Z := 16.

End OpenFlow.
Import OpenFlow.

(** ** Buffers, flows and outbound messages *)

(** struct ofpbuf: the bytes at [data] and the byte count [size]. *)
Record ofpbuf : Type := { data : list byte; size : Z }.

(** The fields of struct flow that this file reads; [flow_rest] stands for
    the remaining match fields, which the switch passes on untouched. *)
Record flow : Type := {
  in_port : Z;
  dl_src : list byte;
  dl_dst : list byte;
  flow_rest : list byte
}.

(** A buffer handed to [queue_tx], recorded as the call that built it. *)
Inductive ofmsg : Type :=
| Features_request
    (* make_openflow(sizeof(struct ofp_header), OFPT_FEATURES_REQUEST, &b) *)
| Set_config (miss_send_len : Z)
    (* make_openflow(sizeof *osc, OFPT_SET_CONFIG, &b) *)
| Echo_reply (rq : list byte)
    (* make_echo_reply(rq) *)
| Add_flow (f : flow) (buffer_id idle_timeout actions_len : Z)
           (actions : list ofp_action) (match_wildcards : Z)
    (* make_add_flow(...), ofpbuf_put(actions), ofm->match.wildcards *)
| Packet_out (pkt : ofpbuf) (buffer_id in_port : Z)
             (actions : list ofp_action) (n_actions : Z)
    (* make_packet_out(...) *)
| Clone (b : ofpbuf).
    (* ofpbuf_clone(b) *)

(** The OpenFlow type of an outbound buffer. *)
Definition ofmsg_type (m : ofmsg) : Z :=
  match m with
  | Features_request => OFPT_FEATURES_REQUEST
  | Set_config _ => OFPT_SET_CONFIG
  | Echo_reply _ => OFPT_ECHO_REPLY
  | Add_flow _ _ _ _ _ _ => OFPT_FLOW_MOD
  | Packet_out _ _ _ _ _ => OFPT_PACKET_OUT
  | Clone b => oh_type (data b)
  end.

(** struct rconn, as far as this file looks into it. *)
Definition rconn : Type := list ofmsg.

(** ** lib/packets.h *)

(** Modelled from the spec: [eth_addr_is_reserved] is declared in
    [lib/packets.h], which is not part of the sources.  By section 4.C of
    the specification it holds of the IEEE 802.1D bridging reserved range
    01:80:C2:00:00:00 / ff:ff:ff:ff:ff:f0. *)
Definition eth_addr_is_reserved (ea : list byte) : bool :=
  (u8 ea 0 =? 0x01) && (u8 ea 1 =? 0x80) && (u8 ea 2 =? 0xc2)
  && (u8 ea 3 =? 0x00) && (u8 ea 4 =? 0x00)
  && (Z.land (u8 ea 5) 0xf0 =? 0x00).

(** ** The libraries behind the switch *)

(** The only lock type this file passes to [mac_learning_learn]. *)
Inductive grat_arp_lock_type : Type := GRAT_ARP_LOCK_NONE.

(** The functions of [lib/mac-learning.c], [lib/flow.c] and [lib/ofp-util.c]
    that the switch calls.  Their code is not part of the sources, so the
    switch is written over this interface and the properties that do not
    depend on what these functions compute are proved for every
    implementation.

    - [mac_learning_learn ml now src vlan port lock] returns the updated
      table and whether the returned tag is nonzero.
    - [mac_learning_lookup ml now dst vlan] is the C [int]: negative when
      the address is not known.
    - [flow_extract pkt tun_id in_port] is the flow that the C function
      stores through its last argument.
    - [check_ofp_message_array msg type min_size array_elt_size] is [None]
      for a nonzero (error) return and [Some n] for a zero return that
      stores [n] through [n_array_elts].
    - [hmap_insert nodes n port] is [lib/hmap.h]'s insertion of node [n],
      hashed by its port number, into a map whose nodes are walked in the
      order [nodes]; the result is the order in which the map is walked
      afterwards.  The map puts the node somewhere among the others and may
      reorder them when it grows, so all that is known of the result is
      that it holds the old nodes and the new one. *)
Class Collaborators : Type := {
  mac_learning : Type;
  mac_learning_create : Z -> mac_learning;
  mac_learning_learn :
    mac_learning -> Z -> list byte -> Z -> Z -> grat_arp_lock_type ->
    mac_learning * bool;
  mac_learning_lookup : mac_learning -> Z -> list byte -> Z -> Z;
  mac_learning_run : mac_learning -> Z -> mac_learning;
  flow_extract : ofpbuf -> Z -> Z -> flow;
  check_ofp_message_array : list byte -> Z -> Z -> Z -> option nat;
  hmap_insert : list string -> string -> Z -> list string;
  hmap_insert_perm : forall nodes n port,
    hmap_insert nodes n port ≡ₚ n :: nodes
}.

(** ** learning-switch.h *)

(** enum lswitch_mode.  The sources name [LSW_NORMAL] and [LSW_LEARN]; the
    third mode is the hub of the specification. *)
Inductive lswitch_mode : Type := LSW_NORMAL | LSW_FLOOD | LSW_LEARN.

#[global] Instance lswitch_mode_eq_dec : EqDecision lswitch_mode.
Proof. solve_decision. Defined.

(** struct lswitch_config, with the fields [lswitch_create] reads.
    [port_queues] is a pointer to a string map from port name to queue
    number, or NULL; [default_flows] is a chain of buffers. *)
Record lswitch_config : Type := {
  mode : lswitch_mode;
  cfg_max_idle : Z;
  exact_flows : bool;
  cfg_default_queue : Z;
  port_queues : option (gmap string Z);
  default_flows : list ofpbuf
}.

(** ** learning-switch.c: data *)

(** struct lswitch_port.  [hmap_node] is [true] while the node is linked
    into [queue_numbers] and [false] after [hmap_node_nullify].  [port_no]
    is left unset by [xmalloc] and is read only through [queue_numbers]. *)
Record lswitch_port : Type := {
  hmap_node : bool;
  port_no : Z;
  queue_id : Z
}.

Section Switch.
Context `{Collaborators}.

(** struct lswitch.  [queue_names] owns the ports; [queue_numbers] links
    the resolved ones, named here by their key in [queue_names], in the
    order in which the hash map walks them.  The packet counter [queued]
    belongs to the link. *)
Record lswitch : Type := {
  max_idle : Z;
  datapath_id : Z;
  last_features_request : Z;
  ml : option mac_learning;
  wildcards : Z;
  action_normal : bool;
  default_queue : Z;
  queue_numbers : list string;
  queue_names : gmap string lswitch_port
}.

Definition set_datapath_id (v : Z) (sw : lswitch) : lswitch :=
  {| max_idle := max_idle sw; datapath_id := v;
     last_features_request := last_features_request sw; ml := ml sw;
     wildcards := wildcards sw; action_normal := action_normal sw;
     default_queue := default_queue sw;
     queue_numbers := queue_numbers sw; queue_names := queue_names sw |}.

Definition set_last_features_request (v : Z) (sw : lswitch) : lswitch :=
  {| max_idle := max_idle sw; datapath_id := datapath_id sw;
     last_features_request := v; ml := ml sw;
     wildcards := wildcards sw; action_normal := action_normal sw;
     default_queue := default_queue sw;
     queue_numbers := queue_numbers sw; queue_names := queue_names sw |}.

Definition set_ml (v : option mac_learning) (sw : lswitch) : lswitch :=
  {| max_idle := max_idle sw; datapath_id := datapath_id sw;
     last_features_request := last_features_request sw; ml := v;
     wildcards := wildcards sw; action_normal := action_normal sw;
     default_queue := default_queue sw;
     queue_numbers := queue_numbers sw; queue_names := queue_names sw |}.

Definition set_queues (nums : list string) (names : gmap string lswitch_port)
    (sw : lswitch) : lswitch :=
  {| max_idle := max_idle sw; datapath_id := datapath_id sw;
     last_features_request := last_features_request sw; ml := ml sw;
     wildcards := wildcards sw; action_normal := action_normal sw;
     default_queue := default_queue sw;
     queue_numbers := nums; queue_names := names |}.

(** ** learning-switch.c: functions *)

Definition queue_tx (sw : lswitch) (rc : rconn) (b : ofmsg) : rconn :=
  rc ++ [b].

Definition send_features_request (sw : lswitch) (rc : rconn) (now : Z)
    : lswitch * rconn :=
  if last_features_request sw + 1 <=? now then
    (* Send OFPT_FEATURES_REQUEST. *)
    let rc := queue_tx sw rc Features_request in
    (* Send OFPT_SET_CONFIG. *)
    let rc := queue_tx sw rc (Set_config OFP_DEFAULT_MISS_SEND_LEN) in
    (set_last_features_request now sw, rc)
  else (sw, rc).

(** The loop over [cfg->default_flows]. *)
Fixpoint send_default_flows (sw : lswitch) (rc : rconn) (bs : list ofpbuf)
    : rconn :=
  match bs with
  | [] => rc
  | b :: bs' => send_default_flows sw (queue_tx sw rc (Clone b)) bs'
  end.

Definition lswitch_create (rc : rconn) (cfg : lswitch_config) (now : Z)
    : lswitch * rconn :=
  let sw :=
    {| max_idle := cfg_max_idle cfg;
       datapath_id := 0;
       last_features_request := now - 1;
       ml := if decide (mode cfg = LSW_LEARN)
             then Some (mac_learning_create now) else None;
       action_normal := bool_decide (mode cfg = LSW_NORMAL);
       wildcards :=
         if exact_flows cfg then 0
         else Z.lor OFPFW_DL_TYPE (Z.lor OFPFW_NW_SRC_MASK
                (Z.lor OFPFW_NW_DST_MASK (Z.lor OFPFW_NW_PROTO
                  (Z.lor OFPFW_TP_SRC OFPFW_TP_DST))));
       default_queue := cfg_default_queue cfg;
       queue_numbers := [];
       queue_names :=
         match port_queues cfg with
         | Some pq =>
             (fun q => {| hmap_node := false; port_no := 0;
                          queue_id := uint32_t q |}) <$> pq
         | None => ∅
         end |} in
  let '(sw, rc) := send_features_request sw rc now in
  (sw, send_default_flows sw rc (default_flows cfg)).

Definition lswitch_run (sw : lswitch) (now : Z) : lswitch :=
  match ml sw with
  | Some t => set_ml (Some (mac_learning_run t now)) sw
  | None => sw
  end.

(** The C string at [opp->name] once [name[OFP_MAX_PORT_NAME_LEN - 1]] has
    been set to NUL. *)
Fixpoint c_str (bs : list byte) : list byte :=
  match bs with
  | [] => []
  | b :: bs' => if Byte.eqb b x00 then [] else b :: c_str bs'
  end.

Definition port_name (opp : list byte) : string :=
  string_of_list_byte
    (c_str (firstn (OFP_MAX_PORT_NAME_LEN - 1) (opp_name opp))).

(** One round of the loop of [process_switch_features]. *)
Definition resolve_port (osf : list byte) (sw : lswitch) (i : nat)
    : lswitch :=
  let opp := osf_ports osf i in
  match queue_names sw !! port_name opp with
  | Some lp =>
      if negb (hmap_node lp) then
        let lp' := {| hmap_node := true;
                      port_no := ntohs (opp_port_no opp);
                      queue_id := queue_id lp |} in
        set_queues (hmap_insert (queue_numbers sw) (port_name opp)
                                (port_no lp'))
                   (<[port_name opp := lp']> (queue_names sw)) sw
      else sw
  | None => sw
  end.

Definition process_switch_features (sw : lswitch) (rc : rconn) (now : Z)
    (osf : list byte) : lswitch * rconn :=
  match check_ofp_message_array osf OFPT_FEATURES_REPLY
          sizeof_ofp_switch_features sizeof_ofp_phy_port with
  | None => (sw, rc)
  | Some n_ports =>
      let sw := set_datapath_id (ntohll (osf_datapath_id osf)) sw in
      (fold_left (resolve_port osf) (seq 0 n_ports) sw, rc)
  end.

Definition lswitch_choose_destination (sw : lswitch) (now : Z) (fl : flow)
    : lswitch * Z :=
  (* Learn the source MAC. *)
  let sw :=
    match ml sw with
    | Some t =>
        let '(t', _) := mac_learning_learn t now (dl_src fl) 0 (in_port fl)
                          GRAT_ARP_LOCK_NONE in
        set_ml (Some t') sw
    | None => sw
    end in
  (* Drop frames for reserved multicast addresses. *)
  if eth_addr_is_reserved (dl_dst fl) then (sw, OFPP_NONE)
  else
    let out_port : option Z :=
      match ml sw with
      | Some t =>
          let learned_port := mac_learning_lookup t now (dl_dst fl) 0 in
          if 0 <=? learned_port then
            let out_port := uint16_t learned_port in
            if out_port =? in_port fl then
              (* Don't send a packet back out its input port. *)
              None
            else Some out_port
          else Some OFPP_FLOOD
      | None => Some OFPP_FLOOD
      end in
    match out_port with
    | None => (sw, OFPP_NONE)
    | Some out_port =>
        (* Check if we need to use "NORMAL" action. *)
        if action_normal sw && negb (out_port =? OFPP_FLOOD)
        then (sw, OFPP_NORMAL)
        else (sw, out_port)
    end.

(** The walk of HMAP_FOR_EACH_WITH_HASH over the ports linked into
    [queue_numbers], in the order the map keeps them.  Only a node with the
    port number looked for can end the walk, so nodes of other buckets,
    which the C loop does not visit, make no difference. *)
Fixpoint hmap_find_port (names : gmap string lswitch_port)
    (nodes : list string) (port : Z) : option lswitch_port :=
  match nodes with
  | [] => None
  | n :: nodes' =>
      match names !! n with
      | Some lp =>
          if port_no lp =? port then Some lp
          else hmap_find_port names nodes' port
      | None => hmap_find_port names nodes' port
      end
  end.

Definition get_queue_id (sw : lswitch) (port : Z) : Z :=
  match hmap_find_port (queue_names sw) (queue_numbers sw) port with
  | Some lp => queue_id lp
  | None => default_queue sw
  end.

(** The block "Make actions" of [process_packet_in]: the contents of
    [actions] and [actions_len]. *)
Definition make_actions (out_port queue_id' : Z)
    : list ofp_action * Z :=
  if out_port =? OFPP_NONE then ([], 0)
  else if (queue_id' =? UINT32_MAX) || (OFPP_MAX <=? out_port) then
    ([OFPAT_OUTPUT out_port], sizeof_ofp_action_output)
  else
    ([OFPAT_ENQUEUE out_port queue_id'], sizeof_ofp_action_enqueue).

Definition process_packet_in (sw : lswitch) (rc : rconn) (now : Z)
    (opi : list byte) : lswitch * rconn :=
  let in_port' := ntohs (opi_in_port opi) in
  (* Ignore packets sent via output to OFPP_CONTROLLER. *)
  if negb (opi_reason opi =? OFPR_NO_MATCH) then (sw, rc)
  else
    (* Extract flow data from 'opi' into 'flow'. *)
    let pkt_ofs := offsetof_ofp_packet_in_data in
    let pkt_len := size_t (ntohs (oh_length opi) - pkt_ofs) in
    let pkt := {| data := opi_data opi; size := pkt_len |} in
    let fl := flow_extract pkt 0 in_port' in
    (* Choose output port. *)
    let '(sw, out_port) := lswitch_choose_destination sw now fl in
    (* Make actions. *)
    let queue_id' := get_queue_id sw in_port' in
    let '(actions, actions_len) := make_actions out_port queue_id' in
    (* Send the packet, and possibly the whole flow, to the output port. *)
    if (0 <=? max_idle sw)
       && (negb (bool_decide (is_Some (ml sw)))
           || negb (out_port =? OFPP_FLOOD)) then
      (* The output port is known, or we always flood everything, so add
         a new flow. *)
      let rc :=
        queue_tx sw rc
          (* make_add_flow takes the idle timeout as a 16-bit value. *)
          (Add_flow fl (ntohl (opi_buffer_id opi)) (uint16_t (max_idle sw))
                    actions_len actions (wildcards sw)) in
      (* If the switch didn't buffer the packet, we need to send a
         copy. *)
      if (ntohl (opi_buffer_id opi) =? UINT32_MAX) && (0 <? actions_len)
      then
        (sw, queue_tx sw rc
               (Packet_out pkt UINT32_MAX in_port' actions
                           (actions_len / sizeof_ofp_action_header)))
      else (sw, rc)
    else
      (* We don't know that MAC, or we don't set up flows.  Send along
         the packet without setting up a flow. *)
      if negb (ntohl (opi_buffer_id opi) =? UINT32_MAX)
         || (0 <? actions_len) then
        (sw, queue_tx sw rc
               (Packet_out pkt (ntohl (opi_buffer_id opi)) in_port' actions
                           (actions_len / sizeof_ofp_action_header)))
      else (sw, rc).

Definition process_echo_request (sw : lswitch) (rc : rconn) (now : Z)
    (rq : list byte) : lswitch * rconn :=
  (sw, queue_tx sw rc (Echo_reply rq)).

Definition packet_handler_func : Type :=
  lswitch -> rconn -> Z -> list byte -> lswitch * rconn.

Record processor : Type := {
  type : Z;
  min_size : Z;
  handler : option packet_handler_func
}.

Definition processors : list processor :=
  [ {| type := OFPT_ECHO_REQUEST;
       min_size := sizeof_ofp_header;
       handler := Some process_echo_request |};
    {| type := OFPT_FEATURES_REPLY;
       min_size := sizeof_ofp_switch_features;
       handler := Some process_switch_features |};
    {| type := OFPT_PACKET_IN;
       min_size := offsetof_ofp_packet_in_data;
       handler := Some process_packet_in |};
    {| type := OFPT_FLOW_REMOVED;
       min_size := sizeof_ofp_flow_removed;
       handler := None |} ].

(** The loop over [processors]; a type that no entry names falls out of
    the loop and is only logged. *)
Fixpoint dispatch (ps : list processor) (sw : lswitch) (rc : rconn)
    (now : Z) (msg : ofpbuf) : lswitch * rconn :=
  match ps with
  | [] => (sw, rc)
  | p :: ps' =>
      if oh_type (data msg) =? type p then
        if size msg <? min_size p then (sw, rc)
        else
          match handler p with
          | Some h => h sw rc now (data msg)
          | None => (sw, rc)
          end
      else dispatch ps' sw rc now msg
  end.

Definition lswitch_process_packet (sw : lswitch) (rc : rconn) (now : Z)
    (msg : ofpbuf) : lswitch * rconn :=
  let oh := data msg in
  if (datapath_id sw =? 0)
     && negb (oh_type oh =? OFPT_ECHO_REQUEST)
     && negb (oh_type oh =? OFPT_FEATURES_REPLY) then
    send_features_request sw rc now
  else dispatch processors sw rc now msg.

(** What the caller does with a session over time: messages received on
    the link and calls of [lswitch_run], each at the clock value of the
    call. *)
Inductive event : Type :=
| Receive (now : Z) (msg : ofpbuf)
| Run (now : Z).

Definition lswitch_step (st : lswitch * rconn) (e : event)
    : lswitch * rconn :=
  match e with
  | Receive now msg => lswitch_process_packet (fst st) (snd st) now msg
  | Run now => (lswitch_run (fst st) now, snd st)
  end.

Definition lswitch_session (cfg : lswitch_config) (now : Z)
    (es : list event) : lswitch * rconn :=
  fold_left lswitch_step es (lswitch_create [] cfg now).

(** The buffers handed to the link while a session goes through [es],
    each with the [datapath_id] the session had when it took up the
    event. *)
Fixpoint lswitch_trace (sw : lswitch) (es : list event)
    : list (Z * ofmsg) :=
  match es with
  | [] => []
  | e :: es' =>
      let st := lswitch_step (sw, []) e in
      map (pair (datapath_id sw)) (snd st) ++ lswitch_trace (fst st) es'
  end.

(** The packet-in of [opi] as [process_packet_in] sees it: ingress port,
    embedded packet and extracted flow. *)
Definition opi_pkt (opi : list byte) : ofpbuf :=
  {| data := opi_data opi;
     size := size_t (ntohs (oh_length opi) - offsetof_ofp_packet_in_data) |}.

Definition opi_flow (opi : list byte) : flow :=
  flow_extract (opi_pkt opi) 0 (ntohs (opi_in_port opi)).

(** ** Predicates of the properties *)

(** The message types a session may send while its datapath is unknown. *)
Definition handshake_type (t : Z) : Prop :=
  t = OFPT_FEATURES_REQUEST \/ t = OFPT_SET_CONFIG \/ t = OFPT_ECHO_REPLY.

Definition is_add_flow (m : ofmsg) : bool :=
  match m with Add_flow _ _ _ _ _ _ => true | _ => false end.

Definition is_packet_out (m : ofmsg) : bool :=
  match m with Packet_out _ _ _ _ _ => true | _ => false end.

(** The action list a flow-mod or packet-out carries. *)
Definition ofmsg_actions (m : ofmsg) : option (list ofp_action) :=
  match m with
  | Add_flow _ _ _ _ acts _ => Some acts
  | Packet_out _ _ _ acts _ => Some acts
  | _ => None
  end.

(** A port is indexed when [queue_numbers] links it. *)
Definition indexed (sw : lswitch) (n : string) (lp : lswitch_port) : Prop :=
  n ∈ queue_numbers sw /\ queue_names sw !! n = Some lp.

(** Invariant 2 of the specification: distinct indexed bindings have
    distinct port numbers. *)
Definition distinct_port_numbers (sw : lswitch) : Prop :=
  forall n1 n2 lp1 lp2,
    indexed sw n1 lp1 -> indexed sw n2 lp2 ->
    n1 <> n2 -> port_no lp1 <> port_no lp2.

(** The index links exactly the ports whose node is not null, each
    once. *)
Definition index_consistent (sw : lswitch) : Prop :=
  NoDup (queue_numbers sw) /\
  forall n, n ∈ queue_numbers sw <->
            exists lp, queue_names sw !! n = Some lp /\ hmap_node lp = true.

(** [sw'] has the configuration of [sw]: the fields set once by
    [lswitch_create], and a learning table exactly when [sw] has one. *)
Definition same_config (sw sw' : lswitch) : Prop :=
  max_idle sw' = max_idle sw /\ wildcards sw' = wildcards sw
  /\ action_normal sw' = action_normal sw
  /\ default_queue sw' = default_queue sw
  /\ (is_Some (ml sw') <-> is_Some (ml sw)).

(** [sw'] has the queue tables of [sw]. *)
Definition same_queues (sw sw' : lswitch) : Prop :=
  queue_numbers sw' = queue_numbers sw /\ queue_names sw' = queue_names sw.

End Switch.

(** ** The collaborators as the specification describes them *)

#[global] Instance byte_eq_dec : EqDecision byte := Byte.byte_eq_dec.

(** Modelled from the spec: [lib/mac-learning.c] is not part of the sources.
    The table of sections 3 and 4.A of the specification: a bounded mapping
    from (station address, VLAN) to port number, learned and used
    timestamps and a lock state, kept in recency order (least recently used
    first); [learn] refuses multicast and zero source addresses, overwrites
    on a station move and otherwise inserts or refreshes; [lookup] answers
    unknown for an absent, aged or locked key; [run] removes the entries
    older than [AGE_MAX]. *)
Module MacLearning.

Record mac_entry : Type := {
  mac : list byte;
  vlan : Z;
  port : Z;
  learned_ts : Z;
  used_ts : Z;
  lock_until : option Z
}.

Definition MAX_ENTRIES : nat := 2048.
Definition AGE_HARD : Z := 300.
Definition AGE_MAX : Z := 3600.

Definition eth_addr_is_multicast (ea : list byte) : bool :=
  Z.odd (u8 ea 0).

Definition eth_addr_is_zero (ea : list byte) : bool :=
  forallb (fun b => byte_val b =? 0) (field ea 0 6).

Definition same_key (a : list byte) (v : Z) (e : mac_entry) : bool :=
  bool_decide (mac e = a) && (vlan e =? v).

Definition locked (now : Z) (e : mac_entry) : bool :=
  match lock_until e with
  | Some t => now <? t
  | None => false
  end.

Definition create (now : Z) : list mac_entry := [].

Definition learn (t : list mac_entry) (now : Z) (src : list byte) (v p : Z)
    (lock : grat_arp_lock_type) : list mac_entry * bool :=
  if eth_addr_is_multicast src || eth_addr_is_zero src then (t, false)
  else
    match find (same_key src v) t with
    | Some e =>
        if locked now e then (t, false)
        else
          let moved := negb (port e =? p) in
          let e' := {| mac := src; vlan := v; port := p;
                       learned_ts := if moved then now else learned_ts e;
                       used_ts := now;
                       lock_until := lock_until e |} in
          (List.filter (fun x => negb (same_key src v x)) t ++ [e'],
           moved)
    | None =>
        let e' := {| mac := src; vlan := v; port := p;
                     learned_ts := now; used_ts := now;
                     lock_until := None |} in
        let t := if (MAX_ENTRIES <=? length t)%nat then tl t else t in
        (t ++ [e'], false)
    end.

Definition lookup (t : list mac_entry) (now : Z) (dst : list byte) (v : Z)
    : Z :=
  match find (same_key dst v) t with
  | Some e =>
      if (AGE_HARD <? now - used_ts e) || locked now e then -1
      else port e
  | None => -1
  end.

Definition run (t : list mac_entry) (now : Z) : list mac_entry :=
  List.filter (fun e => negb (AGE_MAX <? now - used_ts e)) t.

(** Addresses that [learn] accepts. *)
Definition learnable (ea : list byte) : bool :=
  negb (eth_addr_is_multicast ea) && negb (eth_addr_is_zero ea).

(** What holds of the table of every session: no entry is locked, and
    every entry is for an address that [learn] accepts. *)
Definition table_ok (t : list mac_entry) : Prop :=
  Forall (fun e => lock_until e = None /\ learnable (mac e) = true) t.

End MacLearning.

(** Modelled from the spec: [lib/flow.c] is not part of the sources.
    By section 3 of the specification the flow key holds the ingress port
    given by the caller and the destination and source station addresses of
    the frame, which are the first twelve bytes of an Ethernet frame. *)
Definition eth_flow_extract (pkt : ofpbuf) (tun_id port : Z) : flow :=
  {| in_port := port;
     dl_dst := field (data pkt) 0 6;
     dl_src := field (data pkt) 6 6;
     flow_rest := skipn 12 (data pkt) |}.

(** Modelled from the spec: [lib/ofp-util.c] is not part of the sources.
    By section 4.D of the specification a features-reply is the fixed header
    followed by N ports; the check accepts a message of the expected type
    whose length field is the fixed size plus a whole number of array
    elements, and yields that number. *)
Definition spec_check_ofp_message_array (msg : list byte)
    (ty min_sz array_elt_size : Z) : option nat :=
  let got_size := ntohs (oh_length msg) in
  if negb (oh_type msg =? ty) then None
  else if got_size <? min_sz then None
  else if negb ((got_size - min_sz) mod array_elt_size =? 0) then None
  else Some (Z.to_nat ((got_size - min_sz) / array_elt_size)).

(** The order in which OVS's hash map walks its nodes, as far as nodes of
    one bucket go: a node is inserted at the head of its bucket, and when
    the map grows (at 2, 8, 16, 32, ... nodes) every bucket is rebuilt in
    reverse.  [lib/hmap.c] is not part of the sources and the switch does
    not depend on this order; it is used for concrete runs only. *)
Definition hmap_grows (n : nat) : bool :=
  (n =? 2)%nat || ((8 <=? n)%nat && (n =? 2 ^ Nat.log2 n)%nat).

Definition spec_hmap_insert (nodes : list string) (n : string) (port : Z)
    : list string :=
  if hmap_grows (S (length nodes)) then rev (n :: nodes) else n :: nodes.

Definition spec_hmap_insert_perm (nodes : list string) (n : string)
    (port : Z) : spec_hmap_insert nodes n port ≡ₚ n :: nodes :=
  match hmap_grows (S (length nodes)) as b
    return (if b then rev (n :: nodes) else n :: nodes) ≡ₚ n :: nodes
  with
  | true => Permutation_sym (Permutation_rev (n :: nodes))
  | false => Permutation_refl (n :: nodes)
  end.

#[global] Instance spec_collaborators : Collaborators := {|
  mac_learning := list MacLearning.mac_entry;
  mac_learning_create := MacLearning.create;
  mac_learning_learn := MacLearning.learn;
  mac_learning_lookup := MacLearning.lookup;
  mac_learning_run := MacLearning.run;
  flow_extract := eth_flow_extract;
  check_ofp_message_array := spec_check_ofp_message_array;
  hmap_insert := spec_hmap_insert;
  hmap_insert_perm := spec_hmap_insert_perm
|}.

(** ** Sample configurations and messages *)

Module Samples.

Definition byte_of (z : Z) : byte :=
  default x00 (Byte.of_N (Z.to_N (z mod 256))).

(** [n] bytes holding [z] in network byte order. *)
Fixpoint hton (n : nat) (z : Z) : list byte :=
  match n with
  | O => []
  | S n' => hton n' (z / 256) ++ [byte_of z]
  end.

Definition ofp_header (ty len : Z) : list byte :=
  [x01; byte_of ty] ++ hton 2 len ++ hton 4 0.

Definition mk_ofpbuf (d : list byte) : ofpbuf :=
  {| data := d; size := Z.of_nat (length d) |}.

(** An Ethernet frame: destination, source, and an IPv4 ethertype. *)
Definition frame (dst src : list byte) : list byte :=
  dst ++ src ++ [x08; x00].

Definition packet_in (buffer_id port reason : Z) (fr : list byte)
    : ofpbuf :=
  mk_ofpbuf
    (ofp_header OFPT_PACKET_IN (18 + Z.of_nat (length fr))
     ++ hton 4 buffer_id ++ hton 2 (Z.of_nat (length fr))
     ++ hton 2 port ++ [byte_of reason; x00] ++ fr).

Definition pad_name (s : string) : list byte :=
  firstn 16 (list_byte_of_string s ++ repeat x00 16).

Definition phy_port (no : Z) (name : string) : list byte :=
  hton 2 no ++ repeat x00 6 ++ pad_name name ++ repeat x00 24.

Definition features_reply (dpid : Z) (ports : list (list byte)) : ofpbuf :=
  mk_ofpbuf
    (ofp_header OFPT_FEATURES_REPLY (32 + 48 * Z.of_nat (length ports))
     ++ hton 8 dpid ++ repeat x00 16 ++ concat ports).

Definition echo_request : ofpbuf :=
  mk_ofpbuf (ofp_header OFPT_ECHO_REQUEST 8).

(** A pre-serialised flow-mod, as found in [default_flows]. *)
Definition flow_mod : ofpbuf :=
  mk_ofpbuf (ofp_header OFPT_FLOW_MOD 72 ++ repeat x00 64).

Definition mac_a : list byte := [x00; x11; x22; x33; x44; x55].
Definition mac_b : list byte := [x66; x77; x88; x99; xaa; xbb].
Definition mac_bcast : list byte := [xff; xff; xff; xff; xff; xff].
Definition mac_stp : list byte := [x01; x80; xc2; x00; x00; x00].

Definition cfg (m : lswitch_mode) (idle : Z) : lswitch_config :=
  {| mode := m;
     cfg_max_idle := idle;
     exact_flows := false;
     cfg_default_queue := 3;
     port_queues := Some {[ "eth0"%string := 7; "eth1"%string := 8 ]};
     default_flows := [] |}.

Definition cfg_default_flows : lswitch_config :=
  {| mode := LSW_LEARN;
     cfg_max_idle := 60;
     exact_flows := false;
     cfg_default_queue := UINT32_MAX;
     port_queues := None;
     default_flows := [flow_mod] |}.

Definition dpid : Z := 0x0123456789abcdef.

(** A session of the given mode after the handshake with a datapath that
    lists "eth0" as port 5. *)
Definition handshake : list event :=
  [Receive 100 (features_reply dpid [phy_port 5 "eth0"])].

Definition known (m : lswitch_mode) (idle : Z) : lswitch * rconn :=
  lswitch_session (cfg m idle) 100 handshake.

(** A learn-mode session that has seen station b on port 1. *)
Definition learned : lswitch :=
  fst (lswitch_session (cfg LSW_LEARN 60) 100
         (handshake
          ++ [Receive 101 (packet_in UINT32_MAX 1 0 (frame mac_a mac_b))])).

(** Packet-ins without a buffer: a to b on port 1, a to b on port 5, and
    a to a reserved multicast address on port 5. *)
Definition packet_in_a_b : ofpbuf :=
  packet_in UINT32_MAX 1 0 (frame mac_b mac_a).
Definition packet_in_a_b_port5 : ofpbuf :=
  packet_in UINT32_MAX 5 0 (frame mac_b mac_a).
Definition packet_in_reserved : ofpbuf :=
  packet_in UINT32_MAX 5 0 (frame mac_stp mac_a).

(** A packet-in cut off after ten bytes. *)
Definition short_packet_in : ofpbuf :=
  mk_ofpbuf (ofp_header OFPT_PACKET_IN 10 ++ [x00; x00]).

(** Flows on port 1: a to b, a to a, broadcast to broadcast. *)
Definition flow_a_b : flow :=
  eth_flow_extract (mk_ofpbuf (frame mac_b mac_a)) 0 1.
Definition flow_a_a : flow :=
  eth_flow_extract (mk_ofpbuf (frame mac_a mac_a)) 0 1.
Definition flow_bcast_bcast : flow :=
  eth_flow_extract (mk_ofpbuf (frame mac_bcast mac_bcast)) 0 1.

(** Features-replies: two names under one port number, two names under
    two numbers, and one port with datapath_id 0. *)
Definition reply_one_number : ofpbuf :=
  features_reply dpid [phy_port 5 "eth0"; phy_port 5 "eth1"].
Definition reply_two_numbers : ofpbuf :=
  features_reply dpid [phy_port 5 "eth0"; phy_port 6 "eth1"].
Definition reply_zero_datapath : ofpbuf :=
  features_reply 0 [phy_port 5 "eth0"].

End Samples.

(** ** Observers of outbound messages and events *)

(** The buffer id a flow-mod or packet-out names. *)
Definition ofmsg_buffer_id (m : ofmsg) : option Z :=
  match m with
  | Add_flow _ b _ _ _ _ => Some b
  | Packet_out _ b _ _ _ => Some b
  | _ => None
  end.

(** The idle timeout a flow-mod carries. *)
Definition ofmsg_idle_timeout (m : ofmsg) : option Z :=
  match m with
  | Add_flow _ _ idle _ _ _ => Some idle
  | _ => None
  end.

(** The bytes an action takes in [actions]. *)
Definition ofp_action_size (a : ofp_action) : Z :=
  match a with
  | OFPAT_OUTPUT _ => sizeof_ofp_action_output
  | OFPAT_ENQUEUE _ _ => sizeof_ofp_action_enqueue
  end.

(** The port an action sends to. *)
Definition ofp_action_port (a : ofp_action) : Z :=
  match a with
  | OFPAT_OUTPUT p => p
  | OFPAT_ENQUEUE p _ => p
  end.

(** An event that is not the arrival of a features-reply. *)
Definition not_features_reply (e : event) : Prop :=
  match e with
  | Receive _ msg => oh_type (data msg) <> OFPT_FEATURES_REPLY
  | Run _ => True
  end.

(** A message that the resend guard of [lswitch_process_packet] stops while
    the datapath is unknown. *)
Definition not_handshake (msg : ofpbuf) : Prop :=
  oh_type (data msg) <> OFPT_ECHO_REQUEST
  /\ oh_type (data msg) <> OFPT_FEATURES_REPLY.

Module MoreSamples.
Import Samples.

(** An echo-request with a four-byte payload. *)
Definition echo_request_payload : ofpbuf :=
  mk_ofpbuf (ofp_header OFPT_ECHO_REQUEST 12 ++ [x01; x02; x03; x04]).

(** A message of a type the table does not name (OFPT_HELLO). *)
Definition hello : ofpbuf := mk_ofpbuf (ofp_header 0 8).

(** A packet-in that names buffer 7, from a to b on port 1. *)
Definition packet_in_buffered : ofpbuf :=
  packet_in 7 1 0 (frame mac_b mac_a).

(** A features-reply whose length field does not cover a whole port. *)
Definition reply_bad_length : ofpbuf :=
  mk_ofpbuf (ofp_header OFPT_FEATURES_REPLY 40
             ++ hton 8 dpid ++ repeat x00 24).

(** A configuration with a port name of sixteen characters. *)
Definition cfg_long_name : lswitch_config :=
  {| mode := LSW_LEARN;
     cfg_max_idle := 60;
     exact_flows := false;
     cfg_default_queue := 3;
     port_queues := Some {[ "abcdefghijklmnop"%string := 9 ]};
     default_flows := [] |}.

Definition reply_long_name : ofpbuf :=
  features_reply dpid [phy_port 4 "abcdefghijklmnop"].

(** A later features-reply that lists "eth0" as port 9. *)
Definition reply_renumbered : ofpbuf :=
  features_reply dpid [phy_port 9 "eth0"].

(** The messages the learn-mode session [learned] sends for
    [packet_in_a_b_port5]. *)
Definition enqueue_flow_mod : ofmsg :=
  Add_flow (eth_flow_extract (mk_ofpbuf (frame mac_b mac_a)) 0 5)
    UINT32_MAX 60 16 [OFPAT_ENQUEUE 1 7] 1048560.
Definition enqueue_packet_out : ofmsg :=
  Packet_out (mk_ofpbuf (frame mac_b mac_a)) UINT32_MAX 5
    [OFPAT_ENQUEUE 1 7] 2.

End MoreSamples.

(** * Properties *)

Section Properties.
Context `{Collaborators}.

(** ** What a call hands to the link *)

Lemma send_features_request_link sw rc now :
  send_features_request sw rc now
  = (fst (send_features_request sw [] now),
     rc ++ snd (send_features_request sw [] now)).
Proof.
  unfold send_features_request, queue_tx.
  destruct (last_features_request sw + 1 <=? now); simpl.
  - by rewrite <- app_assoc.
  - by rewrite app_nil_r.
Qed.

Lemma send_default_flows_link sw rc bs :
  send_default_flows sw rc bs = rc ++ map Clone bs.
Proof.
  revert rc. induction bs as [|b bs IH]; intros rc; simpl.
  - by rewrite app_nil_r.
  - rewrite IH. unfold queue_tx. by rewrite <- app_assoc.
Qed.

Lemma process_switch_features_link sw rc now osf :
  process_switch_features sw rc now osf
  = (fst (process_switch_features sw [] now osf), rc).
Proof.
  unfold process_switch_features.
  by destruct (check_ofp_message_array _ _ _ _).
Qed.

Lemma process_packet_in_link sw rc now opi :
  process_packet_in sw rc now opi
  = (fst (process_packet_in sw [] now opi),
     rc ++ snd (process_packet_in sw [] now opi)).
Proof.
  unfold process_packet_in, queue_tx.
  destruct (negb (opi_reason opi =? OFPR_NO_MATCH)); simpl.
  { by rewrite app_nil_r. }
  destruct (lswitch_choose_destination _ _ _) as [sw' out_port].
  destruct (make_actions _ _) as [actions actions_len].
  repeat match goal with
         | |- context [if ?c then _ else _] => destruct c; simpl
         end;
    rewrite ?app_nil_r, <- ?app_assoc; reflexivity.
Qed.

Lemma dispatch_link ps sw rc now msg :
  (forall p h, p ∈ ps -> handler p = Some h ->
     forall sw rc now d,
       h sw rc now d = (fst (h sw [] now d), rc ++ snd (h sw [] now d))) ->
  dispatch ps sw rc now msg
  = (fst (dispatch ps sw [] now msg),
     rc ++ snd (dispatch ps sw [] now msg)).
Proof.
  induction ps as [|p ps IH]; intros Hh; simpl.
  { by rewrite app_nil_r. }
  destruct (oh_type (data msg) =? type p).
  - destruct (size msg <? min_size p); simpl.
    { by rewrite app_nil_r. }
    destruct (handler p) as [h|] eqn:Hp; simpl.
    + apply (Hh p h); [left | done].
    + by rewrite app_nil_r.
  - apply IH. intros p' h' Hin. apply Hh. by right.
Qed.

Lemma processors_link p h :
  p ∈ processors -> handler p = Some h ->
  forall sw rc now d,
    h sw rc now d = (fst (h sw [] now d), rc ++ snd (h sw [] now d)).
Proof.
  unfold processors. intros Hin Hh sw rc now d.
  repeat (apply elem_of_cons in Hin as [-> | Hin]);
    simpl in Hh; try discriminate; try (by apply elem_of_nil in Hin);
    injection Hh as <-.
  - reflexivity.
  - unfold process_switch_features.
    destruct (check_ofp_message_array _ _ _ _); simpl;
      by rewrite app_nil_r.
  - apply process_packet_in_link.
Qed.

Lemma lswitch_process_packet_link sw rc now msg :
  lswitch_process_packet sw rc now msg
  = (fst (lswitch_process_packet sw [] now msg),
     rc ++ snd (lswitch_process_packet sw [] now msg)).
Proof.
  unfold lswitch_process_packet.
  destruct (_ && _).
  - apply send_features_request_link.
  - apply dispatch_link, processors_link.
Qed.

(** ** Dispatch *)

Lemma dispatch_echo_request sw rc now msg :
  oh_type (data msg) = OFPT_ECHO_REQUEST ->
  dispatch processors sw rc now msg
  = if size msg <? sizeof_ofp_header then (sw, rc)
    else process_echo_request sw rc now (data msg).
Proof. intros Ht. unfold processors. simpl. by rewrite Ht. Qed.

Lemma dispatch_features_reply sw rc now msg :
  oh_type (data msg) = OFPT_FEATURES_REPLY ->
  dispatch processors sw rc now msg
  = if size msg <? sizeof_ofp_switch_features then (sw, rc)
    else process_switch_features sw rc now (data msg).
Proof. intros Ht. unfold processors. simpl. by rewrite Ht. Qed.

Lemma dispatch_packet_in sw rc now msg :
  oh_type (data msg) = OFPT_PACKET_IN ->
  dispatch processors sw rc now msg
  = if size msg <? offsetof_ofp_packet_in_data then (sw, rc)
    else process_packet_in sw rc now (data msg).
Proof. intros Ht. unfold processors. simpl. by rewrite Ht. Qed.

Lemma dispatch_flow_removed sw rc now msg :
  oh_type (data msg) = OFPT_FLOW_REMOVED ->
  dispatch processors sw rc now msg = (sw, rc).
Proof.
  intros Ht. unfold processors. simpl. rewrite Ht. simpl.
  by destruct (size msg <? sizeof_ofp_flow_removed).
Qed.

(** With a known datapath every message goes through the table. *)
Lemma lswitch_process_packet_known sw rc now msg :
  datapath_id sw <> 0 ->
  lswitch_process_packet sw rc now msg = dispatch processors sw rc now msg.
Proof.
  intros Hdp. unfold lswitch_process_packet.
  by destruct (Z.eqb_spec (datapath_id sw) 0).
Qed.

(** With an unknown datapath only echo-request and features-reply do. *)
Lemma lswitch_process_packet_unknown sw rc now msg :
  datapath_id sw = 0 ->
  lswitch_process_packet sw rc now msg
  = if (oh_type (data msg) =? OFPT_ECHO_REQUEST)
       || (oh_type (data msg) =? OFPT_FEATURES_REPLY)
    then dispatch processors sw rc now msg
    else send_features_request sw rc now.
Proof.
  intros Hdp. unfold lswitch_process_packet. rewrite Hdp. simpl.
  destruct (oh_type (data msg) =? OFPT_ECHO_REQUEST);
    destruct (oh_type (data msg) =? OFPT_FEATURES_REPLY); reflexivity.
Qed.

Lemma lswitch_process_packet_in sw rc now msg :
  datapath_id sw <> 0 ->
  oh_type (data msg) = OFPT_PACKET_IN ->
  offsetof_ofp_packet_in_data <= size msg ->
  lswitch_process_packet sw rc now msg
  = process_packet_in sw rc now (data msg).
Proof.
  intros Hdp Ht Hsz.
  rewrite lswitch_process_packet_known, dispatch_packet_in by done.
  destruct (Z.ltb_spec (size msg) offsetof_ofp_packet_in_data);
    [lia | done].
Qed.

(** A features-reply of full size reaches its handler whether or not the
    datapath is known. *)
Lemma lswitch_process_packet_features_reply sw rc now msg :
  oh_type (data msg) = OFPT_FEATURES_REPLY ->
  sizeof_ofp_switch_features <= size msg ->
  lswitch_process_packet sw rc now msg
  = process_switch_features sw rc now (data msg).
Proof.
  intros Ht Hsz.
  assert (Hd : dispatch processors sw rc now msg
               = process_switch_features sw rc now (data msg)).
  { rewrite dispatch_features_reply by done.
    destruct (Z.ltb_spec (size msg) sizeof_ofp_switch_features);
      [lia | done]. }
  destruct (decide (datapath_id sw = 0)) as [Hdp | Hdp].
  - rewrite lswitch_process_packet_unknown by done.
    rewrite Ht. apply Hd.
  - by rewrite lswitch_process_packet_known.
Qed.

(** ** Short messages *)

(** C9. A message whose type has an entry in the dispatch table
    (echo-request, features-reply, packet-in, flow-removed) and whose size
    is below the minimum of that entry is dropped: the session and the
    link are left as they were.  This holds with a known datapath, and
    with an unknown one for echo-request and features-reply, which the
    resend guard lets through. *)
Theorem short_message_dropped sw rc now msg p :
  p ∈ processors ->
  oh_type (data msg) = type p ->
  size msg < min_size p ->
  datapath_id sw <> 0
  \/ type p = OFPT_ECHO_REQUEST \/ type p = OFPT_FEATURES_REPLY ->
  lswitch_process_packet sw rc now msg = (sw, rc).
Proof.
  intros Hin Ht Hsz Hguard.
  assert (Hd : dispatch processors sw rc now msg = (sw, rc)).
  { unfold processors in Hin.
    repeat (apply elem_of_cons in Hin as [-> | Hin]);
      try (by apply elem_of_nil in Hin); simpl in Ht, Hsz.
    - rewrite dispatch_echo_request by done.
      destruct (Z.ltb_spec (size msg) sizeof_ofp_header); [done | lia].
    - rewrite dispatch_features_reply by done.
      destruct (Z.ltb_spec (size msg) sizeof_ofp_switch_features);
        [done | lia].
    - rewrite dispatch_packet_in by done.
      destruct (Z.ltb_spec (size msg) offsetof_ofp_packet_in_data);
        [done | lia].
    - by apply dispatch_flow_removed. }
  destruct (decide (datapath_id sw = 0)) as [Hdp | Hdp].
  - rewrite lswitch_process_packet_unknown by done.
    destruct Hguard as [Hk | [Hk | Hk]]; [done | |];
      rewrite Ht, Hk; simpl; apply Hd.
  - by rewrite lswitch_process_packet_known.
Qed.

(** The minimum sizes of the table, by type. *)
Lemma processors_min_sizes :
  map (fun p => (type p, min_size p)) processors
  = [ (OFPT_ECHO_REQUEST, 8); (OFPT_FEATURES_REPLY, 32);
      (OFPT_PACKET_IN, 18); (OFPT_FLOW_REMOVED, 88) ].
Proof. reflexivity. Qed.

(** ** Sessions with an unknown datapath *)

Lemma lswitch_create_link rc cfg now :
  snd (lswitch_create rc cfg now)
  = rc ++ Features_request :: Set_config OFP_DEFAULT_MISS_SEND_LEN
          :: map Clone (default_flows cfg).
Proof.
  unfold lswitch_create, send_features_request, queue_tx. simpl.
  destruct (Z.leb_spec (now - 1 + 1) now); [| lia]. simpl.
  rewrite send_default_flows_link, <- !app_assoc. reflexivity.
Qed.

Lemma lswitch_create_datapath_id rc cfg now :
  datapath_id (fst (lswitch_create rc cfg now)) = 0.
Proof.
  unfold lswitch_create, send_features_request. simpl.
  by destruct (now - 1 + 1 <=? now).
Qed.

Lemma send_features_request_types sw now :
  Forall (fun m => handshake_type (ofmsg_type m))
         (snd (send_features_request sw [] now)).
Proof.
  unfold send_features_request, queue_tx.
  destruct (last_features_request sw + 1 <=? now); simpl;
    repeat (constructor; [unfold handshake_type; simpl; auto |]);
    constructor.
Qed.

Lemma lswitch_process_packet_unknown_types sw now msg :
  datapath_id sw = 0 ->
  Forall (fun m => handshake_type (ofmsg_type m))
         (snd (lswitch_process_packet sw [] now msg)).
Proof.
  intros Hdp. rewrite lswitch_process_packet_unknown by done.
  destruct (Z.eqb_spec (oh_type (data msg)) OFPT_ECHO_REQUEST) as [He | He];
    [| destruct (Z.eqb_spec (oh_type (data msg)) OFPT_FEATURES_REPLY)
         as [Hf | Hf]]; cbn [orb].
  - rewrite dispatch_echo_request by done.
    destruct (size msg <? sizeof_ofp_header); simpl; [constructor |].
    unfold queue_tx.
    repeat (constructor; [unfold handshake_type; simpl; auto |]);
      constructor.
  - rewrite dispatch_features_reply by done.
    destruct (size msg <? sizeof_ofp_switch_features); simpl;
      [constructor |].
    rewrite process_switch_features_link. constructor.
  - apply send_features_request_types.
Qed.

Lemma lswitch_step_link st e :
  lswitch_step st e
  = (fst (lswitch_step (fst st, []) e),
     snd st ++ snd (lswitch_step (fst st, []) e)).
Proof.
  destruct st as [sw rc], e as [now msg | now]; simpl.
  - apply lswitch_process_packet_link.
  - by rewrite app_nil_r.
Qed.

Lemma fold_lswitch_step_trace es sw rc :
  fold_left lswitch_step es (sw, rc)
  = (fst (fold_left lswitch_step es (sw, [])),
     rc ++ map snd (lswitch_trace sw es)).
Proof.
  revert sw rc. induction es as [|e es IH]; intros sw rc; simpl.
  { by rewrite app_nil_r. }
  rewrite (lswitch_step_link (sw, rc)). simpl.
  rewrite IH. destruct (lswitch_step (sw, []) e) as [sw' out] eqn:He.
  simpl. rewrite (IH sw' out). simpl.
  rewrite map_app, map_map. simpl. rewrite map_id, <- app_assoc.
  reflexivity.
Qed.

(** The link of a session: what construction sent, then the trace. *)
Lemma lswitch_session_link cfg now es :
  snd (lswitch_session cfg now es)
  = snd (lswitch_create [] cfg now)
    ++ map snd (lswitch_trace (fst (lswitch_create [] cfg now)) es).
Proof.
  unfold lswitch_session.
  destruct (lswitch_create [] cfg now) as [sw rc].
  by rewrite fold_lswitch_step_trace.
Qed.

(** C1, as the code has it.  Construction sends a features-request and a
    set-config and then the configured default flows unchanged, whatever
    their type, all of it while [datapath_id] is 0.  After construction,
    for every sequence of events, a buffer handed to the link while
    [datapath_id] is 0 is a features-request, a set-config or an
    echo-reply; in particular it is no flow-mod and no packet-out. *)
Theorem unknown_datapath_link :
  (forall cfg now,
     datapath_id (fst (lswitch_create [] cfg now)) = 0
     /\ snd (lswitch_create [] cfg now)
        = Features_request :: Set_config OFP_DEFAULT_MISS_SEND_LEN
            :: map Clone (default_flows cfg))
  /\ (forall sw es dp m,
        (dp, m) ∈ lswitch_trace sw es -> dp = 0 ->
        handshake_type (ofmsg_type m)
        /\ is_add_flow m = false /\ is_packet_out m = false).
Proof.
  split.
  { intros cfg now. split; [apply lswitch_create_datapath_id |].
    by rewrite lswitch_create_link. }
  intros sw es. revert sw.
  induction es as [|e es IH]; intros sw dp m Hin Hdp; simpl in Hin.
  { by apply elem_of_nil in Hin. }
  apply elem_of_app in Hin as [Hin | Hin]; [| by eapply IH].
  apply list_elem_of_fmap in Hin as (m' & [= -> ->] & Hin).
  destruct e as [now msg | now]; simpl in Hin;
    [| by apply elem_of_nil in Hin].
  pose proof (lswitch_process_packet_unknown_types sw now msg Hdp) as Hall.
  rewrite Forall_forall in Hall. specialize (Hall _ Hin).
  split; [done |].
  destruct m'; try done;
    destruct Hall as [Hc | [Hc | Hc]]; discriminate Hc.
Qed.

(** ** Fields that a session keeps *)

Lemma same_config_refl sw : same_config sw sw.
Proof. by repeat split. Qed.

Lemma same_config_trans sw1 sw2 sw3 :
  same_config sw1 sw2 -> same_config sw2 sw3 -> same_config sw1 sw3.
Proof.
  intros (? & ? & ? & ? & ?) (? & ? & ? & ? & ?).
  repeat split; try congruence; tauto.
Qed.

Lemma lswitch_choose_destination_state sw now fl :
  fst (lswitch_choose_destination sw now fl)
  = match ml sw with
    | Some t =>
        set_ml (Some (fst (mac_learning_learn t now (dl_src fl) 0
                             (in_port fl) GRAT_ARP_LOCK_NONE))) sw
    | None => sw
    end.
Proof.
  unfold lswitch_choose_destination.
  destruct (ml sw) as [t|] eqn:Hml.
  - destruct (mac_learning_learn _ _ _ _ _ _) as [t' b]. simpl.
    destruct (eth_addr_is_reserved _); [done |].
    destruct (0 <=? _); [destruct (_ =? in_port fl); [done |] |];
      by destruct (_ && _).
  - destruct (eth_addr_is_reserved _); [done |].
    rewrite Hml. by destruct (_ && _).
Qed.

Lemma lswitch_choose_destination_config sw now fl :
  same_config sw (fst (lswitch_choose_destination sw now fl))
  /\ same_queues sw (fst (lswitch_choose_destination sw now fl))
  /\ datapath_id (fst (lswitch_choose_destination sw now fl))
     = datapath_id sw.
Proof.
  rewrite lswitch_choose_destination_state.
  destruct (ml sw) as [t|] eqn:Hml; simpl.
  - repeat split; simpl; rewrite ?Hml; eauto.
  - repeat split; done.
Qed.

Lemma process_packet_in_state sw rc now opi :
  fst (process_packet_in sw rc now opi)
  = if opi_reason opi =? OFPR_NO_MATCH
    then fst (lswitch_choose_destination sw now (opi_flow opi))
    else sw.
Proof.
  unfold process_packet_in, opi_flow, opi_pkt.
  destruct (opi_reason opi =? OFPR_NO_MATCH); simpl; [| done].
  destruct (lswitch_choose_destination _ _ _) as [sw' out_port].
  destruct (make_actions _ _) as [actions actions_len]. simpl.
  repeat match goal with
         | |- context [if ?c then _ else _] => destruct c; simpl
         end; reflexivity.
Qed.

Lemma resolve_port_config osf sw i :
  same_config sw (resolve_port osf sw i)
  /\ datapath_id (resolve_port osf sw i) = datapath_id sw.
Proof.
  unfold resolve_port.
  destruct (queue_names sw !! _) as [lp|]; [destruct (negb _) |];
    by repeat split.
Qed.

Lemma resolve_ports_config osf l sw :
  same_config sw (fold_left (resolve_port osf) l sw)
  /\ datapath_id (fold_left (resolve_port osf) l sw) = datapath_id sw.
Proof.
  revert sw. induction l as [|i l IH]; intros sw; simpl.
  { split; [apply same_config_refl | done]. }
  destruct (IH (resolve_port osf sw i)) as [Hc Hd].
  destruct (resolve_port_config osf sw i) as [Hc' Hd'].
  split; [by eapply same_config_trans | congruence].
Qed.

Lemma send_features_request_config sw rc now :
  same_config sw (fst (send_features_request sw rc now))
  /\ same_queues sw (fst (send_features_request sw rc now))
  /\ datapath_id (fst (send_features_request sw rc now)) = datapath_id sw.
Proof.
  unfold send_features_request.
  destruct (_ <=? now); by repeat split.
Qed.

Lemma lswitch_process_packet_config sw rc now msg :
  same_config sw (fst (lswitch_process_packet sw rc now msg)).
Proof.
  unfold lswitch_process_packet.
  destruct (_ && _); [apply send_features_request_config |].
  unfold processors. simpl.
  repeat match goal with
         | |- context [if ?c then _ else _] => destruct c; simpl
         end; try apply same_config_refl.
  - unfold process_switch_features.
    destruct (check_ofp_message_array _ _ _ _); simpl;
      [| apply same_config_refl].
    eapply same_config_trans; [| apply resolve_ports_config].
    by repeat split.
  - rewrite process_packet_in_state.
    destruct (_ =? _); [apply lswitch_choose_destination_config |].
    apply same_config_refl.
Qed.

Lemma lswitch_step_config st e :
  same_config (fst st) (fst (lswitch_step st e)).
Proof.
  destruct st as [sw rc], e as [now msg | now]; simpl.
  - apply lswitch_process_packet_config.
  - unfold lswitch_run. destruct (ml sw) as [t|] eqn:Hml; simpl.
    + repeat split; simpl; rewrite ?Hml; eauto.
    + apply same_config_refl.
Qed.

Lemma fold_lswitch_step_config es st :
  same_config (fst st) (fst (fold_left lswitch_step es st)).
Proof.
  revert st. induction es as [|e es IH]; intros st; simpl.
  { apply same_config_refl. }
  eapply same_config_trans; [apply lswitch_step_config | apply IH].
Qed.

(** The configuration of a session is the one [lswitch_create] set up. *)
Lemma lswitch_session_config cfg now es :
  let sw := fst (lswitch_session cfg now es) in
  max_idle sw = cfg_max_idle cfg
  /\ action_normal sw = bool_decide (mode cfg = LSW_NORMAL)
  /\ default_queue sw = cfg_default_queue cfg
  /\ (is_Some (ml sw) <-> mode cfg = LSW_LEARN)
  /\ wildcards sw = wildcards (fst (lswitch_create [] cfg now)).
Proof.
  unfold lswitch_session.
  destruct (fold_lswitch_step_config es (lswitch_create [] cfg now))
    as (Hi & Hw & Ha & Hq & Hm).
  simpl. rewrite Hi, Ha, Hq, Hm, Hw.
  unfold lswitch_create, send_features_request. simpl.
  destruct (_ <=? now); simpl;
    (repeat split; try done;
     destruct (decide (mode cfg = LSW_LEARN)) as [Hl | Hl];
     try (intros [? [=]]); eauto; try done).
Qed.

(** ** The output policy without a learning table *)

Lemma lswitch_choose_destination_no_table sw now fl :
  ml sw = None ->
  snd (lswitch_choose_destination sw now fl)
  = if eth_addr_is_reserved (dl_dst fl) then OFPP_NONE else OFPP_FLOOD.
Proof.
  intros Hml. unfold lswitch_choose_destination. rewrite Hml.
  destruct (eth_addr_is_reserved _); [done |]. rewrite Hml.
  replace (OFPP_FLOOD =? OFPP_FLOOD) with true by reflexivity.
  by rewrite andb_false_r.
Qed.

(** ** What a packet-in sends *)

Lemma get_queue_id_same_queues sw sw' p :
  same_queues sw sw' -> default_queue sw' = default_queue sw ->
  get_queue_id sw' p = get_queue_id sw p.
Proof.
  intros [Hn Hm] Hd. unfold get_queue_id. by rewrite Hn, Hm, Hd.
Qed.

(** The buffers that [process_packet_in] hands to the link, in terms of
    the session it was called with. *)
Lemma process_packet_in_sends sw now opi :
  opi_reason opi = OFPR_NO_MATCH ->
  let fl := opi_flow opi in
  let port := ntohs (opi_in_port opi) in
  let buffer_id := ntohl (opi_buffer_id opi) in
  let out_port := snd (lswitch_choose_destination sw now fl) in
  let actions := fst (make_actions out_port (get_queue_id sw port)) in
  let actions_len := snd (make_actions out_port (get_queue_id sw port)) in
  snd (process_packet_in sw [] now opi)
  = if (0 <=? max_idle sw)
       && (negb (bool_decide (is_Some (ml sw)))
           || negb (out_port =? OFPP_FLOOD))
    then
      Add_flow fl buffer_id (uint16_t (max_idle sw)) actions_len actions
        (wildcards sw)
      :: (if (buffer_id =? UINT32_MAX) && (0 <? actions_len)
          then [Packet_out (opi_pkt opi) UINT32_MAX port actions
                  (actions_len / sizeof_ofp_action_header)]
          else [])
    else
      if negb (buffer_id =? UINT32_MAX) || (0 <? actions_len)
      then [Packet_out (opi_pkt opi) buffer_id port actions
              (actions_len / sizeof_ofp_action_header)]
      else [].
Proof.
  intros Hr. simpl.
  destruct (lswitch_choose_destination_config sw now (opi_flow opi))
    as ((Hi & Hw & _ & Hq & Hm) & Hqs & _).
  unfold process_packet_in, queue_tx. rewrite Hr. simpl.
  fold (opi_pkt opi). fold (opi_flow opi).
  destruct (lswitch_choose_destination sw now (opi_flow opi))
    as [sw' out_port]. simpl in *.
  rewrite (get_queue_id_same_queues sw sw') by done.
  destruct (make_actions _ _) as [actions actions_len]. simpl.
  rewrite Hi, Hw.
  replace (bool_decide (is_Some (ml sw')))
    with (bool_decide (is_Some (ml sw))) by (by apply bool_decide_ext).
  repeat match goal with
         | |- context [if ?c then _ else _] => destruct c; simpl
         end; reflexivity.
Qed.

(** ** Flow set-up *)

Lemma process_packet_in_add_flow sw now opi :
  opi_reason opi = OFPR_NO_MATCH ->
  let out_port := snd (lswitch_choose_destination sw now (opi_flow opi)) in
  let sent := snd (process_packet_in sw [] now opi) in
  (Exists (fun m => is_add_flow m = true) sent
   <-> 0 <= max_idle sw /\ (ml sw = None \/ out_port <> OFPP_FLOOD))
  /\ (forall f b idle al acts w,
        Add_flow f b idle al acts w ∈ sent ->
        idle = uint16_t (max_idle sw) /\ w = wildcards sw).
Proof.
  intros Hr. cbv zeta. rewrite process_packet_in_sends by done. cbv zeta.
  set (out_port := snd (lswitch_choose_destination sw now (opi_flow opi))).
  set (acts := make_actions out_port _).
  assert (Hcond :
    (0 <=? max_idle sw)
    && (negb (bool_decide (is_Some (ml sw)))
        || negb (out_port =? OFPP_FLOOD)) = true
    <-> 0 <= max_idle sw /\ (ml sw = None \/ out_port <> OFPP_FLOOD)).
  { rewrite andb_true_iff, orb_true_iff, !negb_true_iff,
      bool_decide_eq_false, Z.leb_le, Z.eqb_neq.
    rewrite <- eq_None_not_Some. tauto. }
  destruct ((0 <=? max_idle sw) && _) eqn:Hc.
  - split.
    + split; [intros _; by apply Hcond | intros _; by left].
    + intros f b idle al a w Hin.
      apply elem_of_cons in Hin as [[=] | Hin]; [by subst |].
      destruct (_ && _) in Hin.
      * apply elem_of_cons in Hin as [[=] | Hin].
        by apply elem_of_nil in Hin.
      * by apply elem_of_nil in Hin.
  - split.
    + split.
      * intros Hex. exfalso.
        destruct (_ || _) in Hex.
        -- apply Exists_cons in Hex as [[=] | Hex].
           by apply Exists_nil in Hex.
        -- by apply Exists_nil in Hex.
      * intros Hyes. apply Hcond in Hyes. discriminate.
    + intros f b idle al a w Hin.
      destruct (_ || _) in Hin.
      * apply elem_of_cons in Hin as [[=] | Hin].
        by apply elem_of_nil in Hin.
      * by apply elem_of_nil in Hin.
Qed.


(** ** Reserved multicast destinations *)

Lemma lswitch_choose_destination_reserved sw now fl :
  eth_addr_is_reserved (dl_dst fl) = true ->
  snd (lswitch_choose_destination sw now fl) = OFPP_NONE.
Proof.
  intros Hres. unfold lswitch_choose_destination.
  destruct (ml sw) as [t|];
    [destruct (mac_learning_learn _ _ _ _ _ _) |]; by rewrite Hres.
Qed.

(** C4, as the code has it.  For a packet-in with reason NO_MATCH whose
    destination lies in the reserved multicast range and whose buffer_id
    is NONE, the output port is NONE, the action list is empty and no
    packet-out is sent.  With a negative idle timeout nothing at all is
    sent; with a non-negative one the session installs the drop: exactly
    one FLOW_MOD(ADD) with an empty action list. *)
Theorem reserved_multicast_drop sw rc now msg :
  datapath_id sw <> 0 ->
  oh_type (data msg) = OFPT_PACKET_IN ->
  offsetof_ofp_packet_in_data <= size msg ->
  opi_reason (data msg) = OFPR_NO_MATCH ->
  eth_addr_is_reserved (dl_dst (opi_flow (data msg))) = true ->
  ntohl (opi_buffer_id (data msg)) = UINT32_MAX ->
  snd (lswitch_choose_destination sw now (opi_flow (data msg))) = OFPP_NONE
  /\ snd (lswitch_process_packet sw rc now msg)
     = rc ++ (if 0 <=? max_idle sw
              then [Add_flow (opi_flow (data msg)) UINT32_MAX
                      (uint16_t (max_idle sw)) 0 [] (wildcards sw)]
              else []).
Proof.
  intros Hdp Ht Hsz Hr Hres Hbuf.
  pose proof (lswitch_choose_destination_reserved sw now _ Hres) as Hout.
  split; [done |].
  rewrite lswitch_process_packet_in, process_packet_in_link by done.
  simpl. f_equal.
  rewrite process_packet_in_sends by done. cbv zeta.
  rewrite Hout, Hbuf. unfold make_actions.
  replace (OFPP_NONE =? OFPP_NONE) with true by reflexivity.
  replace (OFPP_NONE =? OFPP_FLOOD) with false by reflexivity.
  simpl. rewrite orb_true_r, andb_true_r.
  by destruct (0 <=? max_idle sw).
Qed.

(** ** Actions *)

Lemma process_packet_in_actions sw now opi m :
  opi_reason opi = OFPR_NO_MATCH ->
  m ∈ snd (process_packet_in sw [] now opi) ->
  ofmsg_actions m
  = Some (fst (make_actions
                 (snd (lswitch_choose_destination sw now (opi_flow opi)))
                 (get_queue_id sw (ntohs (opi_in_port opi))))).
Proof.
  intros Hr. rewrite process_packet_in_sends by done. cbv zeta.
  repeat match goal with
         | |- context [if ?c then _ else _] => destruct c
         end;
    intros Hin;
    repeat (apply elem_of_cons in Hin as [-> | Hin]; [done |]);
    by apply elem_of_nil in Hin.
Qed.

Lemma make_actions_cases out_port q :
  (out_port = OFPP_NONE -> make_actions out_port q = ([], 0))
  /\ (out_port <> OFPP_NONE ->
      q = UINT32_MAX \/ OFPP_MAX <= out_port ->
      make_actions out_port q
      = ([OFPAT_OUTPUT out_port], sizeof_ofp_action_output))
  /\ (out_port <> OFPP_NONE ->
      q <> UINT32_MAX -> out_port < OFPP_MAX ->
      make_actions out_port q
      = ([OFPAT_ENQUEUE out_port q], sizeof_ofp_action_enqueue)).
Proof.
  unfold make_actions.
  destruct (Z.eqb_spec out_port OFPP_NONE) as [Hn | Hn],
    (Z.eqb_spec q UINT32_MAX) as [Hq | Hq],
    (Z.leb_spec OFPP_MAX out_port) as [Hm | Hm];
    simpl; (split; [| split]); try done; try (intros; lia);
    intros _ [Hq' | Hm']; try done; lia.
Qed.


(** ** Queue lookup *)

Lemma hmap_find_port_None names nodes p :
  (forall n lp, n ∈ nodes -> names !! n = Some lp -> port_no lp <> p) ->
  hmap_find_port names nodes p = None.
Proof.
  induction nodes as [|n nodes IH]; intros Hno; simpl; [done |].
  assert (Hrest : hmap_find_port names nodes p = None).
  { apply IH. intros n' lp' Hin. apply Hno. by right. }
  destruct (names !! n) as [lp|] eqn:Hn; [| done].
  destruct (Z.eqb_spec (port_no lp) p) as [Hp | Hp]; [| done].
  exfalso. eapply Hno; [left | done | done].
Qed.

Lemma hmap_find_port_Some names nodes p lp :
  hmap_find_port names nodes p = Some lp ->
  exists n, n ∈ nodes /\ names !! n = Some lp /\ port_no lp = p.
Proof.
  induction nodes as [|n nodes IH]; simpl; [done |].
  destruct (names !! n) as [lp'|] eqn:Hn.
  - destruct (Z.eqb_spec (port_no lp') p) as [Hp | Hp].
    + intros [= ->]. exists n. split; [left | done].
    + intros Hf. destruct (IH Hf) as (n' & Hin & Hrest).
      exists n'. split; [by right | done].
  - intros Hf. destruct (IH Hf) as (n' & Hin & Hrest).
    exists n'. split; [by right | done].
Qed.

Lemma hmap_find_port_found names nodes p n lp :
  n ∈ nodes -> names !! n = Some lp -> port_no lp = p ->
  is_Some (hmap_find_port names nodes p).
Proof.
  induction nodes as [|n0 nodes IH]; intros Hin Hn Hp; simpl.
  { by apply elem_of_nil in Hin. }
  destruct (names !! n0) as [lp0|] eqn:Hn0.
  - destruct (Z.eqb_spec (port_no lp0) p); [by eexists |].
    apply elem_of_cons in Hin as [-> | Hin]; [| by apply IH].
    congruence.
  - apply elem_of_cons in Hin as [-> | Hin]; [| by apply IH].
    congruence.
Qed.


(** ** Resolving queue bindings *)

Lemma elem_of_hmap_insert nodes n port x :
  x ∈ hmap_insert nodes n port <-> x = n \/ x ∈ nodes.
Proof. by rewrite hmap_insert_perm, elem_of_cons. Qed.

Lemma NoDup_hmap_insert nodes n port :
  n ∉ nodes -> NoDup nodes -> NoDup (hmap_insert nodes n port).
Proof. intros Hn Hnd. rewrite hmap_insert_perm. by constructor. Qed.

Lemma resolve_port_unresolved osf sw i lp :
  queue_names sw !! port_name (osf_ports osf i) = Some lp ->
  hmap_node lp = false ->
  resolve_port osf sw i
  = set_queues
      (hmap_insert (queue_numbers sw) (port_name (osf_ports osf i))
         (ntohs (opp_port_no (osf_ports osf i))))
      (<[port_name (osf_ports osf i) :=
           {| hmap_node := true;
              port_no := ntohs (opp_port_no (osf_ports osf i));
              queue_id := queue_id lp |}]> (queue_names sw)) sw.
Proof. intros Hn Hh. unfold resolve_port. by rewrite Hn, Hh. Qed.

Lemma resolve_port_other osf sw i :
  (forall lp, queue_names sw !! port_name (osf_ports osf i) = Some lp ->
              hmap_node lp = true) ->
  resolve_port osf sw i = sw.
Proof.
  intros Hn. unfold resolve_port.
  destruct (queue_names sw !! _) as [lp|]; [| done].
  by rewrite (Hn lp).
Qed.

(** A round of the loop either leaves the session alone or resolves the
    binding named by port [i]. *)
Lemma resolve_port_cases osf sw i :
  resolve_port osf sw i = sw
  \/ exists lp,
       queue_names sw !! port_name (osf_ports osf i) = Some lp
       /\ hmap_node lp = false
       /\ resolve_port osf sw i
          = set_queues
              (hmap_insert (queue_numbers sw) (port_name (osf_ports osf i))
                 (ntohs (opp_port_no (osf_ports osf i))))
              (<[port_name (osf_ports osf i) :=
                   {| hmap_node := true;
                      port_no := ntohs (opp_port_no (osf_ports osf i));
                      queue_id := queue_id lp |}]> (queue_names sw)) sw.
Proof.
  destruct (queue_names sw !! port_name (osf_ports osf i)) as [lp|] eqn:Hn.
  - destruct (hmap_node lp) eqn:Hh.
    + left. apply resolve_port_other. intros lp'. rewrite Hn. by intros [= <-].
    + right. exists lp. repeat split; try done.
      by apply resolve_port_unresolved.
  - left. apply resolve_port_other. intros lp'. by rewrite Hn.
Qed.

Lemma resolve_port_keeps osf sw i n lp :
  queue_names sw !! n = Some lp ->
  hmap_node lp = true \/ n <> port_name (osf_ports osf i) ->
  queue_names (resolve_port osf sw i) !! n = Some lp.
Proof.
  intros Hn Hor.
  destruct (resolve_port_cases osf sw i) as [-> | (lp0 & Hm & Hh & ->)];
    [done |]. simpl.
  destruct (decide (port_name (osf_ports osf i) = n)) as [<- | Hne].
  - destruct Hor as [Ht | Hne]; [| done]. congruence.
  - by rewrite lookup_insert_ne.
Qed.

Lemma resolve_port_numbers osf sw i n :
  n ∈ queue_numbers sw -> n ∈ queue_numbers (resolve_port osf sw i).
Proof.
  intros Hin.
  destruct (resolve_port_cases osf sw i) as [-> | (lp0 & Hm & Hh & ->)];
    [done |]. simpl. apply elem_of_hmap_insert. by right.
Qed.

Lemma resolve_ports_keep osf l sw n lp :
  indexed sw n lp -> hmap_node lp = true ->
  indexed (fold_left (resolve_port osf) l sw) n lp.
Proof.
  revert sw. induction l as [|i l IH]; intros sw [Hin Hn] Hh; simpl.
  { by split. }
  apply IH; [| done]. split.
  - by apply resolve_port_numbers.
  - apply resolve_port_keeps; auto.
Qed.

(** Every listed port whose name is that of an unresolved binding leaves
    the binding resolved, with the number of a listed port of that
    name. *)
Lemma resolve_ports_listed osf l sw i lp :
  i ∈ l ->
  queue_names sw !! port_name (osf_ports osf i) = Some lp ->
  hmap_node lp = false ->
  exists j, j ∈ l
    /\ port_name (osf_ports osf j) = port_name (osf_ports osf i)
    /\ indexed (fold_left (resolve_port osf) l sw)
         (port_name (osf_ports osf i))
         {| hmap_node := true;
            port_no := ntohs (opp_port_no (osf_ports osf j));
            queue_id := queue_id lp |}.
Proof.
  revert sw. induction l as [|j l IH]; intros sw Hi Hn Hh; simpl.
  { by apply elem_of_nil in Hi. }
  destruct (decide (port_name (osf_ports osf j)
                    = port_name (osf_ports osf i))) as [Heq | Hne].
  - exists j. split; [left | split; [done |]].
    apply resolve_ports_keep; [| done].
    rewrite <- Heq in Hn.
    rewrite (resolve_port_unresolved osf sw j lp) by done.
    rewrite <- Heq. split; simpl;
      [apply elem_of_hmap_insert; by left | by rewrite lookup_insert_eq].
  - apply elem_of_cons in Hi as [-> | Hi]; [done |].
    destruct (IH (resolve_port osf sw j) Hi) as (k & Hk & Hname & Hidx).
    + apply resolve_port_keeps; auto.
    + done.
    + exists k. split; [by right | done].
Qed.

Lemma resolve_port_set_datapath_id osf v sw i :
  resolve_port osf (set_datapath_id v sw) i
  = set_datapath_id v (resolve_port osf sw i).
Proof.
  unfold resolve_port. simpl.
  destruct (queue_names sw !! _) as [lp|]; [destruct (negb _) |]; done.
Qed.

Lemma resolve_ports_set_datapath_id osf v l sw :
  fold_left (resolve_port osf) l (set_datapath_id v sw)
  = set_datapath_id v (fold_left (resolve_port osf) l sw).
Proof.
  revert sw. induction l as [|i l IH]; intros sw; simpl; [done |].
  by rewrite resolve_port_set_datapath_id, IH.
Qed.

(** C10. A features-reply that passes the message-array check and carries
    datapath_id 0 sets the session's [datapath_id] to 0, so that the session
    is in the unknown state afterwards, and its ports are resolved all the
    same: the queue tables are those the resolution loop makes of the
    session's tables, whatever the datapath_id, and every listed port whose
    name is that of an unresolved binding leaves that binding indexed, under
    the number of a listed port of that name. *)
Theorem features_reply_zero_datapath sw rc now msg n_ports :
  oh_type (data msg) = OFPT_FEATURES_REPLY ->
  sizeof_ofp_switch_features <= size msg ->
  check_ofp_message_array (data msg) OFPT_FEATURES_REPLY
    sizeof_ofp_switch_features sizeof_ofp_phy_port = Some n_ports ->
  ntohll (osf_datapath_id (data msg)) = 0 ->
  let osf := data msg in
  let sw' := fst (lswitch_process_packet sw rc now msg) in
  datapath_id sw' = 0
  /\ same_queues (fold_left (resolve_port osf) (seq 0 n_ports) sw) sw'
  /\ (forall i lp,
        (i < n_ports)%nat ->
        queue_names sw !! port_name (osf_ports osf i) = Some lp ->
        hmap_node lp = false ->
        exists j, (j < n_ports)%nat
          /\ port_name (osf_ports osf j) = port_name (osf_ports osf i)
          /\ indexed sw' (port_name (osf_ports osf i))
               {| hmap_node := true;
                  port_no := ntohs (opp_port_no (osf_ports osf j));
                  queue_id := queue_id lp |}).
Proof.
  intros Ht Hsz Hchk Hdp. cbv zeta.
  rewrite lswitch_process_packet_features_reply by done.
  unfold process_switch_features. rewrite Hchk, Hdp.
  cbv zeta. simpl fst.
  rewrite resolve_ports_set_datapath_id.
  split; [done | split; [done |]].
  intros i lp Hi Hn Hh.
  destruct (resolve_ports_listed (data msg) (seq 0 n_ports) sw i lp)
    as (j & Hj & Hname & Hin & Hlk); [| done | done |].
  { apply elem_of_seq. lia. }
  exists j. split; [apply elem_of_seq in Hj; lia |].
  split; [done |]. by split.
Qed.

(** ** The index by port number *)

Lemma index_consistent_same_queues sw sw' :
  same_queues sw sw' -> index_consistent sw -> index_consistent sw'.
Proof. intros [Hn Hm]. unfold index_consistent. by rewrite Hn, Hm. Qed.

Lemma resolve_port_index_consistent osf sw i :
  index_consistent sw -> index_consistent (resolve_port osf sw i).
Proof.
  intros [Hnd Hiff].
  destruct (resolve_port_cases osf sw i) as [-> | (lp & Hm & Hh & ->)];
    [done |].
  set (m := port_name (osf_ports osf i)) in *.
  assert (Hfresh : m ∉ queue_numbers sw).
  { intros Hin. apply Hiff in Hin as (lp' & Hm' & Hh'). congruence. }
  split; simpl.
  - by apply NoDup_hmap_insert.
  - intros n. rewrite elem_of_hmap_insert.
    destruct (decide (n = m)) as [-> | Hne].
    + rewrite lookup_insert_eq. split; [eauto | by left].
    + rewrite lookup_insert_ne by done. rewrite <- Hiff. tauto.
Qed.

Lemma resolve_ports_index_consistent osf l sw :
  index_consistent sw -> index_consistent (fold_left (resolve_port osf) l sw).
Proof.
  revert sw. induction l as [|i l IH]; intros sw Hc; simpl; [done |].
  by apply IH, resolve_port_index_consistent.
Qed.

Lemma lswitch_process_packet_index_consistent sw rc now msg :
  index_consistent sw ->
  index_consistent (fst (lswitch_process_packet sw rc now msg)).
Proof.
  intros Hc. unfold lswitch_process_packet.
  destruct (_ && _).
  { eapply index_consistent_same_queues; [| done].
    apply send_features_request_config. }
  unfold processors. simpl.
  repeat match goal with
         | |- context [if ?c then _ else _] => destruct c; simpl
         end; try done.
  - unfold process_switch_features.
    destruct (check_ofp_message_array _ _ _ _); simpl; [| done].
    by apply resolve_ports_index_consistent.
  - rewrite process_packet_in_state.
    destruct (_ =? _); [| done].
    eapply index_consistent_same_queues; [| done].
    apply lswitch_choose_destination_config.
Qed.

Lemma lswitch_step_index_consistent st e :
  index_consistent (fst st) -> index_consistent (fst (lswitch_step st e)).
Proof.
  destruct st as [sw rc], e as [now msg | now]; simpl; intros Hc.
  - by apply lswitch_process_packet_index_consistent.
  - unfold lswitch_run. by destruct (ml sw).
Qed.

Lemma lswitch_create_index_consistent rc cfg now :
  index_consistent (fst (lswitch_create rc cfg now)).
Proof.
  unfold lswitch_create, send_features_request.
  destruct (_ <=? now); simpl; (split; simpl; [constructor |]);
    intros n; (split; [intros Hin; by apply elem_of_nil in Hin |]);
    intros (lp & Hlp & Hh);
    (destruct (port_queues cfg) as [pq|];
     [rewrite lookup_fmap in Hlp; destruct (pq !! n); simplify_eq/=
     | by rewrite lookup_empty in Hlp]).
Qed.

Lemma lswitch_session_index_consistent cfg now es :
  index_consistent (fst (lswitch_session cfg now es)).
Proof.
  unfold lswitch_session.
  assert (Hst : forall st, index_consistent (fst st) ->
                  index_consistent (fst (fold_left lswitch_step es st))).
  { induction es as [|e es IH]; intros st Hc; simpl; [done |].
    by apply IH, lswitch_step_index_consistent. }
  apply Hst, lswitch_create_index_consistent.
Qed.

(** Only a features-reply touches the queue tables. *)
Lemma lswitch_process_packet_queues sw rc now msg :
  oh_type (data msg) <> OFPT_FEATURES_REPLY ->
  same_queues sw (fst (lswitch_process_packet sw rc now msg)).
Proof.
  intros Ht. unfold lswitch_process_packet.
  destruct (_ && _); [apply send_features_request_config |].
  unfold processors. simpl.
  destruct (Z.eqb_spec (oh_type (data msg)) OFPT_FEATURES_REPLY); [done |].
  repeat match goal with
         | |- context [if ?c then _ else _] => destruct c; simpl
         end; try done.
  rewrite process_packet_in_state.
  destruct (_ =? _); [apply lswitch_choose_destination_config | done].
Qed.

Lemma distinct_port_numbers_same_queues sw sw' :
  same_queues sw sw' -> distinct_port_numbers sw -> distinct_port_numbers sw'.
Proof.
  intros [Hn Hm] Hd n1 n2 lp1 lp2 [Hi1 Hl1] [Hi2 Hl2].
  rewrite Hn in Hi1, Hi2. rewrite Hm in Hl1, Hl2.
  by apply Hd.
Qed.

(** An indexed binding was indexed before the loop, or carries the number
    of a listed port of its name. *)
Lemma resolve_ports_provenance osf l sw n lp :
  indexed (fold_left (resolve_port osf) l sw) n lp ->
  indexed sw n lp
  \/ exists j, j ∈ l /\ n = port_name (osf_ports osf j)
               /\ port_no lp = ntohs (opp_port_no (osf_ports osf j)).
Proof.
  revert sw. induction l as [|j l IH]; intros sw Hidx; simpl in Hidx.
  { by left. }
  destruct (IH _ Hidx) as [[Hin Hn] | (k & Hk & Hname & Hp)].
  - destruct (resolve_port_cases osf sw j) as [Heq | (lp0 & Hm & Hh & Heq)];
      rewrite Heq in Hin, Hn.
    { left. by split. }
    simpl in Hin, Hn.
    destruct (decide (n = port_name (osf_ports osf j))) as [-> | Hne].
    + rewrite lookup_insert_eq in Hn. injection Hn as <-.
      right. exists j. split; [left | done].
    + rewrite lookup_insert_ne in Hn by done.
      apply elem_of_hmap_insert in Hin as [-> | Hin]; [done |].
      left. by split.
  - right. exists k. split; [by right | done].
Qed.

(** C8, as the code has it.  In every reachable state the index links
    exactly the bindings whose node is not null, each at most once.  The
    code never compares port numbers, so distinct indexed bindings have
    distinct port numbers only as far as the features-replies keep them
    apart: a features-reply that passes the check preserves the invariant
    when it lists no port number under two different names and no port
    number that the index holds under another name. *)
Theorem port_index_invariant :
  (forall cfg now0 es,
     index_consistent (fst (lswitch_session cfg now0 es)))
  /\ (forall sw rc now msg n_ports,
        oh_type (data msg) = OFPT_FEATURES_REPLY ->
        sizeof_ofp_switch_features <= size msg ->
        check_ofp_message_array (data msg) OFPT_FEATURES_REPLY
          sizeof_ofp_switch_features sizeof_ofp_phy_port = Some n_ports ->
        distinct_port_numbers sw ->
        (forall i j, (i < n_ports)%nat -> (j < n_ports)%nat ->
           ntohs (opp_port_no (osf_ports (data msg) i))
           = ntohs (opp_port_no (osf_ports (data msg) j)) ->
           port_name (osf_ports (data msg) i)
           = port_name (osf_ports (data msg) j)) ->
        (forall i n lp, (i < n_ports)%nat -> indexed sw n lp ->
           port_no lp = ntohs (opp_port_no (osf_ports (data msg) i)) ->
           n = port_name (osf_ports (data msg) i)) ->
        distinct_port_numbers (fst (lswitch_process_packet sw rc now msg))).
Proof.
  split; [apply lswitch_session_index_consistent |].
  intros sw rc now msg n_ports Ht Hsz Hchk Hd H1 H2.
  rewrite lswitch_process_packet_features_reply by done.
  unfold process_switch_features. rewrite Hchk. cbv zeta. simpl fst.
  rewrite resolve_ports_set_datapath_id.
  set (osf := data msg) in *.
  intros n1 n2 lp1 lp2 Hi1 Hi2 Hne Hp.
  assert (Hprov : forall n lp,
    indexed (set_datapath_id (ntohll (osf_datapath_id osf))
               (fold_left (resolve_port osf) (seq 0 n_ports) sw)) n lp ->
    indexed sw n lp
    \/ exists j, (j < n_ports)%nat /\ n = port_name (osf_ports osf j)
                 /\ port_no lp = ntohs (opp_port_no (osf_ports osf j))).
  { intros n lp Hi.
    destruct (resolve_ports_provenance osf (seq 0 n_ports) sw n lp Hi)
      as [Hold | (j & Hj & Hrest)]; [by left |].
    right. exists j. split; [apply elem_of_seq in Hj; lia | done]. }
  destruct (Hprov _ _ Hi1) as [Ho1 | (j1 & Hj1 & -> & Hp1)],
    (Hprov _ _ Hi2) as [Ho2 | (j2 & Hj2 & -> & Hp2)].
  - by apply (Hd n1 n2 lp1 lp2).
  - apply Hne. apply (H2 j2 n1 lp1); [done | done | congruence].
  - apply Hne. symmetry. apply (H2 j1 n2 lp2); [done | done | congruence].
  - apply Hne. apply H1; [done | done | congruence].
Qed.

(** ** The learning table of a session *)

Lemma resolve_ports_ml osf l sw :
  ml (fold_left (resolve_port osf) l sw) = ml sw.
Proof.
  revert sw. induction l as [|i l IH]; intros sw; simpl; [done |].
  rewrite IH.
  by destruct (resolve_port_cases osf sw i) as [-> | (lp & _ & _ & ->)].
Qed.

Section TableInvariant.
Variable P : mac_learning -> Prop.
Hypothesis P_create : forall now, P (mac_learning_create now).
Hypothesis P_learn : forall t now src v p lock,
  P t -> P (fst (mac_learning_learn t now src v p lock)).
Hypothesis P_run : forall t now, P t -> P (mac_learning_run t now).

Lemma lswitch_process_packet_table sw rc now msg :
  (forall t, ml sw = Some t -> P t) ->
  forall t, ml (fst (lswitch_process_packet sw rc now msg)) = Some t ->
            P t.
Proof using P_learn.
  intros Hsw. unfold lswitch_process_packet.
  destruct (_ && _).
  { unfold send_features_request. by destruct (_ <=? now). }
  unfold processors. simpl.
  repeat match goal with
         | |- context [if ?c then _ else _] => destruct c; simpl
         end; try done.
  - unfold process_switch_features.
    destruct (check_ofp_message_array _ _ _ _); simpl; [| done].
    by rewrite resolve_ports_ml.
  - rewrite process_packet_in_state.
    destruct (_ =? _); [| done].
    rewrite lswitch_choose_destination_state.
    destruct (ml sw) as [t0|] eqn:Hml; [| by rewrite Hml].
    simpl. intros t [= <-]. by apply P_learn, Hsw.
Qed.

Lemma lswitch_session_table cfg now es t :
  ml (fst (lswitch_session cfg now es)) = Some t -> P t.
Proof using P_create P_learn P_run.
  unfold lswitch_session.
  assert (Hst : forall st,
            (forall t, ml (fst st) = Some t -> P t) ->
            forall t, ml (fst (fold_left lswitch_step es st)) = Some t ->
                      P t).
  { induction es as [|e es IH]; intros st Hc; simpl; [done |].
    apply IH. destruct st as [sw rc], e as [now' msg | now']; simpl.
    - by apply lswitch_process_packet_table.
    - unfold lswitch_run. simpl in Hc.
      destruct (ml sw) as [t0|] eqn:Hml; simpl; [| by rewrite Hml].
      intros t' [= <-]. by apply P_run, Hc. }
  apply Hst.
  unfold lswitch_create, send_features_request.
  destruct (_ <=? now); simpl; destruct (decide _); try done;
    intros t' [= <-]; apply P_create.
Qed.
End TableInvariant.

End Properties.

(** * The learning table of the specification *)

Section SpecTable.
Import MacLearning.

Lemma find_app_last {A} (f : A -> bool) l e :
  Forall (fun x => f x = false) l -> f e = true ->
  find f (l ++ [e]) = Some e.
Proof.
  induction 1 as [|x l Hx _ IH]; intros He; simpl.
  - by rewrite He.
  - rewrite Hx. by apply IH.
Qed.

Lemma find_None_Forall {A} (f : A -> bool) l :
  find f l = None -> Forall (fun x => f x = false) l.
Proof.
  induction l as [|x l IH]; simpl; [constructor |].
  destruct (f x) eqn:Hx; [done |]. constructor; auto.
Qed.

Lemma find_Some_elem {A} (f : A -> bool) l e :
  find f l = Some e -> e ∈ l /\ f e = true.
Proof.
  induction l as [|x l IH]; simpl; [done |].
  destruct (f x) eqn:Hx.
  - intros [= ->]. split; [left | done].
  - intros Hf. destruct (IH Hf). split; [by right | done].
Qed.

Lemma Forall_tl {A} (Q : A -> Prop) l : Forall Q l -> Forall Q (tl l).
Proof. destruct 1; [constructor | done]. Qed.

Lemma same_key_refl a v p t1 t2 lk :
  same_key a v {| mac := a; vlan := v; port := p; learned_ts := t1;
                  used_ts := t2; lock_until := lk |} = true.
Proof.
  unfold same_key. simpl. rewrite bool_decide_eq_true_2 by done.
  by rewrite Z.eqb_refl.
Qed.

Lemma learn_table_ok t now src v p lock :
  table_ok t -> table_ok (fst (learn t now src v p lock)).
Proof.
  intros Hok. unfold learn.
  destruct (eth_addr_is_multicast src || eth_addr_is_zero src) eqn:Hsrc;
    [done |].
  assert (Hl : learnable src = true).
  { unfold learnable. apply orb_false_elim in Hsrc as [-> ->]. done. }
  destruct (find (same_key src v) t) as [e|] eqn:Hf.
  - destruct (locked now e); [done |]. simpl.
    apply find_Some_elem in Hf as [He _].
    unfold table_ok in *. rewrite Forall_forall in Hok.
    apply Forall_app. split.
    + apply Forall_forall. intros x Hx.
      apply list_elem_of_In, filter_In in Hx as [Hx _].
      by apply Hok, list_elem_of_In.
    + constructor; [| constructor]. simpl. split; [| done].
      by apply (Hok e).
  - destruct (MAX_ENTRIES <=? length t)%nat; cbn [fst];
      (apply Forall_app; split; [| by repeat constructor]);
      [by apply Forall_tl | done].
Qed.

Lemma run_table_ok t now : table_ok t -> table_ok (run t now).
Proof.
  unfold table_ok, run. rewrite !Forall_forall. intros Hok x Hx.
  apply list_elem_of_In, filter_In in Hx as [Hx _].
  by apply Hok, list_elem_of_In.
Qed.

(** An accepted source is found again at once, on the port it came
    from. *)
Lemma learn_lookup t now src v p lock :
  table_ok t -> learnable src = true ->
  lookup (fst (learn t now src v p lock)) now src v = p.
Proof.
  intros Hok Hl. unfold learnable in Hl.
  apply andb_true_iff in Hl as [Hm Hz].
  apply negb_true_iff in Hm, Hz.
  unfold learn. rewrite Hm, Hz. cbn [orb].
  assert (Hfresh : (AGE_HARD <? now - now) = false).
  { rewrite Z.sub_diag. reflexivity. }
  destruct (find (same_key src v) t) as [e|] eqn:Hf.
  - apply find_Some_elem in Hf as [He _].
    unfold table_ok in Hok. rewrite Forall_forall in Hok.
    destruct (Hok e He) as [Hlock _].
    assert (Hfree : locked now e = false) by (unfold locked; by rewrite Hlock).
    rewrite Hfree. cbn [fst].
    unfold lookup. rewrite find_app_last.
    + simpl. rewrite Hfresh. unfold locked. simpl. by rewrite Hlock.
    + apply Forall_forall. intros x Hx.
      apply list_elem_of_In, filter_In in Hx as [_ Hx].
      by apply negb_true_iff.
    + apply same_key_refl.
  - apply find_None_Forall in Hf.
    assert (Hrest : forall t0 : list mac_entry,
              Forall (fun x => same_key src v x = false) t0 ->
              lookup (t0 ++ [{| mac := src; vlan := v; port := p;
                                learned_ts := now; used_ts := now;
                                lock_until := None |}]) now src v = p).
    { intros t0 Ht0. unfold lookup.
      rewrite find_app_last; [| done | apply same_key_refl].
      simpl. by rewrite Hfresh. }
    destruct (MAX_ENTRIES <=? length t)%nat; cbn [fst];
      apply Hrest; [by apply Forall_tl | done].
Qed.

(** A refused source is not in the table. *)
Lemma lookup_not_learnable t now a v :
  table_ok t -> learnable a = false -> lookup t now a v = -1.
Proof.
  intros Hok Hl. unfold lookup.
  destruct (find (same_key a v) t) as [e|] eqn:Hf; [| done].
  apply find_Some_elem in Hf as [He Hk].
  unfold table_ok in Hok. rewrite Forall_forall in Hok.
  destruct (Hok e He) as [_ Hle].
  unfold same_key in Hk. apply andb_true_iff in Hk as [Hk _].
  apply bool_decide_eq_true in Hk. congruence.
Qed.

Lemma learn_refused t now src v p lock :
  learnable src = false -> fst (learn t now src v p lock) = t.
Proof.
  unfold learnable, learn. intros Hl.
  destruct (eth_addr_is_multicast src), (eth_addr_is_zero src); done.
Qed.

Lemma lswitch_session_table_ok cfg now es t :
  ml (fst (lswitch_session cfg now es)) = Some t -> table_ok t.
Proof.
  apply (@lswitch_session_table spec_collaborators table_ok).
  - intros ?. constructor.
  - intros *. apply learn_table_ok.
  - intros *. apply run_table_ok.
Qed.


End SpecTable.

(** * Concrete runs *)

Section Runs.
Import Samples.

(** ** Unknown datapath *)

(** A session configured with a default flow has handed a flow-mod to
    the link by the end of its construction, with [datapath_id] still 0. *)
Lemma default_flow_sent_unknown :
  datapath_id (fst (lswitch_session cfg_default_flows 100 [])) = 0
  /\ Exists (fun m => ofmsg_type m = OFPT_FLOW_MOD)
       (snd (lswitch_session cfg_default_flows 100 [])).
Proof.
  split; [reflexivity |].
  vm_compute. do 2 right. left. reflexivity.
Qed.

Lemma unknown_datapath_link_witness :
  ((0, Echo_reply (data echo_request))
     ∈ lswitch_trace (fst (lswitch_create [] (cfg LSW_LEARN 60) 100))
         [Receive 100 echo_request]
   /\ 0 = 0)
  /\ handshake_type (ofmsg_type (Echo_reply (data echo_request)))
  /\ is_add_flow (Echo_reply (data echo_request)) = false
  /\ is_packet_out (Echo_reply (data echo_request)) = false.
Proof.
  assert (Hin : (0, Echo_reply (data echo_request))
                ∈ lswitch_trace
                    (fst (lswitch_create [] (cfg LSW_LEARN 60) 100))
                    [Receive 100 echo_request]).
  { vm_compute. left. }
  split; [split; [exact Hin | reflexivity] |].
  exact (proj2 unknown_datapath_link _ _ _ _ Hin eq_refl).
Defined.

(** ** Normal mode *)

(** C2 fails on the code.  A normal-mode session is given no learning
    table by [lswitch_create], so its candidate for a destination outside
    the reserved range is FLOOD; the engine then returns FLOOD, not
    OFPP_NORMAL, because the substitution is made only for a candidate
    other than FLOOD.  The session answers the packet-in exactly as a hub
    session does. *)
Lemma normal_mode_returns_flood :
  action_normal (fst (known LSW_NORMAL 60)) = true
  /\ ml (fst (known LSW_NORMAL 60)) = None
  /\ eth_addr_is_reserved (dl_dst flow_a_b) = false
  /\ snd (lswitch_choose_destination (fst (known LSW_NORMAL 60)) 101
            flow_a_b) = OFPP_FLOOD
  /\ snd (lswitch_choose_destination (fst (known LSW_NORMAL 60)) 101
            flow_a_b) <> OFPP_NORMAL
  /\ snd (lswitch_process_packet (fst (known LSW_NORMAL 60)) [] 101
            packet_in_a_b)
     = snd (lswitch_process_packet (fst (known LSW_FLOOD 60)) [] 101
              packet_in_a_b).
Proof. vm_compute. repeat split; discriminate. Qed.

(** ** Flow set-up *)



(** The hub session above does send a flow-mod, with idle timeout 60. *)
Lemma flow_mod_idle_run :
  map ofmsg_idle_timeout
    (snd (lswitch_process_packet
            (fst (lswitch_session (cfg LSW_FLOOD 60) 100 handshake))
            [] 101 packet_in_a_b)) = [Some 60; None].
Proof. vm_compute. reflexivity. Qed.

(** With station b unknown, the learn-mode session floods the packet and
    installs nothing; in hub mode the same packet-in installs a flow. *)
Lemma learn_and_hub_runs :
  map ofmsg_type
    (snd (lswitch_process_packet (fst (known LSW_LEARN 60)) [] 101
            packet_in_a_b)) = [OFPT_PACKET_OUT]
  /\ map ofmsg_type
       (snd (lswitch_process_packet (fst (known LSW_FLOOD 60)) [] 101
               packet_in_a_b)) = [OFPT_FLOW_MOD; OFPT_PACKET_OUT]
  /\ map ofmsg_type
       (snd (lswitch_process_packet (fst (known LSW_FLOOD (-1))) [] 101
               packet_in_a_b)) = [OFPT_PACKET_OUT].
Proof. vm_compute. done. Qed.

(** ** Reserved multicast *)

(** With a non-negative idle timeout, a packet-in for a reserved
    multicast destination and without a buffer makes the session send a
    flow-mod. *)
Lemma reserved_multicast_flow_mod :
  opi_reason (data packet_in_reserved) = OFPR_NO_MATCH
  /\ eth_addr_is_reserved (dl_dst (opi_flow (data packet_in_reserved)))
     = true
  /\ ntohl (opi_buffer_id (data packet_in_reserved)) = UINT32_MAX
  /\ map ofmsg_type
       (snd (lswitch_process_packet (fst (known LSW_LEARN 60)) [] 101
               packet_in_reserved)) = [OFPT_FLOW_MOD]
  /\ snd (lswitch_process_packet (fst (known LSW_LEARN 60)) [] 101
            packet_in_reserved) <> [].
Proof. vm_compute. repeat split; discriminate. Qed.

Lemma reserved_multicast_drop_witness :
  (datapath_id (fst (known LSW_LEARN (-1))) <> 0
   /\ oh_type (data packet_in_reserved) = OFPT_PACKET_IN
   /\ offsetof_ofp_packet_in_data <= size packet_in_reserved
   /\ opi_reason (data packet_in_reserved) = OFPR_NO_MATCH
   /\ eth_addr_is_reserved (dl_dst (opi_flow (data packet_in_reserved)))
      = true
   /\ ntohl (opi_buffer_id (data packet_in_reserved)) = UINT32_MAX)
  /\ snd (lswitch_choose_destination (fst (known LSW_LEARN (-1))) 101
            (opi_flow (data packet_in_reserved))) = OFPP_NONE
  /\ snd (lswitch_process_packet (fst (known LSW_LEARN (-1))) [] 101
            packet_in_reserved)
     = [] ++ (if 0 <=? max_idle (fst (known LSW_LEARN (-1)))
              then [Add_flow (opi_flow (data packet_in_reserved))
                      UINT32_MAX
                      (uint16_t (max_idle (fst (known LSW_LEARN (-1)))))
                      0 [] (wildcards (fst (known LSW_LEARN (-1))))]
              else []).
Proof.
  assert (H1 : datapath_id (fst (known LSW_LEARN (-1))) <> 0)
    by (vm_compute; discriminate).
  assert (H3 : offsetof_ofp_packet_in_data <= size packet_in_reserved)
    by (vm_compute; discriminate).
  split; [by repeat split |].
  exact (reserved_multicast_drop (fst (known LSW_LEARN (-1))) [] 101
           packet_in_reserved H1 eq_refl H3 eq_refl eq_refl eq_refl).
Defined.

(** ** Equal source and destination *)



(** Station a sending to itself: learned on port 1, found on port 1,
    dropped. *)
Lemma station_to_itself_run :
  MacLearning.learnable (dl_src flow_a_a) = true
  /\ snd (lswitch_choose_destination (fst (known LSW_LEARN 60)) 101
            flow_a_a) = OFPP_NONE.
Proof. vm_compute. done. Qed.

(** ** Actions and queues *)



(** The queue is that of the ingress port 5, not that of the egress
    port 1. *)
Lemma ingress_queue_run :
  get_queue_id learned 5 = 7
  /\ get_queue_id learned 1 = 3
  /\ map ofmsg_actions
       (snd (process_packet_in learned [] 102 (data packet_in_a_b_port5)))
     = [Some [OFPAT_ENQUEUE 1 7]; Some [OFPAT_ENQUEUE 1 7]].
Proof. vm_compute. done. Qed.

(** ** The index by port number *)

(** A features-reply that lists "eth0" and "eth1" under port number 5
    leaves two distinct bindings with the same [port_no] in the index. *)
Lemma one_number_two_bindings :
  indexed (fst (lswitch_session (cfg LSW_LEARN 60) 100
                  [Receive 100 reply_one_number]))
    "eth0" {| hmap_node := true; port_no := 5; queue_id := 7 |}
  /\ indexed (fst (lswitch_session (cfg LSW_LEARN 60) 100
                     [Receive 100 reply_one_number]))
       "eth1" {| hmap_node := true; port_no := 5; queue_id := 8 |}
  /\ ~ distinct_port_numbers
         (fst (lswitch_session (cfg LSW_LEARN 60) 100
                 [Receive 100 reply_one_number])).
Proof.
  assert (H0 : indexed (fst (lswitch_session (cfg LSW_LEARN 60) 100
                               [Receive 100 reply_one_number]))
                 "eth0" {| hmap_node := true; port_no := 5;
                           queue_id := 7 |}).
  { split; vm_compute; [repeat constructor | reflexivity]. }
  assert (H1 : indexed (fst (lswitch_session (cfg LSW_LEARN 60) 100
                               [Receive 100 reply_one_number]))
                 "eth1" {| hmap_node := true; port_no := 5;
                           queue_id := 8 |}).
  { split; vm_compute; [repeat constructor | reflexivity]. }
  split; [done | split; [done |]].
  intros Hd. by apply (Hd _ _ _ _ H0 H1).
Qed.

Lemma port_index_invariant_witness :
  (oh_type (data reply_two_numbers) = OFPT_FEATURES_REPLY
   /\ sizeof_ofp_switch_features <= size reply_two_numbers
   /\ check_ofp_message_array (data reply_two_numbers) OFPT_FEATURES_REPLY
        sizeof_ofp_switch_features sizeof_ofp_phy_port = Some 2%nat
   /\ distinct_port_numbers (fst (lswitch_create [] (cfg LSW_LEARN 60) 100))
   /\ (forall i j, (i < 2)%nat -> (j < 2)%nat ->
         ntohs (opp_port_no (osf_ports (data reply_two_numbers) i))
         = ntohs (opp_port_no (osf_ports (data reply_two_numbers) j)) ->
         port_name (osf_ports (data reply_two_numbers) i)
         = port_name (osf_ports (data reply_two_numbers) j))
   /\ (forall i n lp, (i < 2)%nat ->
         indexed (fst (lswitch_create [] (cfg LSW_LEARN 60) 100)) n lp ->
         port_no lp
         = ntohs (opp_port_no (osf_ports (data reply_two_numbers) i)) ->
         n = port_name (osf_ports (data reply_two_numbers) i)))
  /\ distinct_port_numbers
       (fst (lswitch_process_packet
               (fst (lswitch_create [] (cfg LSW_LEARN 60) 100)) [] 100
               reply_two_numbers)).
Proof.
  assert (H0 : sizeof_ofp_switch_features <= size reply_two_numbers)
    by (vm_compute; discriminate).
  assert (H1 : check_ofp_message_array (data reply_two_numbers)
                 OFPT_FEATURES_REPLY sizeof_ofp_switch_features
                 sizeof_ofp_phy_port = Some 2%nat) by reflexivity.
  assert (H2 : distinct_port_numbers
                 (fst (lswitch_create [] (cfg LSW_LEARN 60) 100))).
  { intros n1 n2 lp1 lp2 [Hin _]. vm_compute in Hin.
    by apply elem_of_nil in Hin. }
  assert (H3 : forall i j, (i < 2)%nat -> (j < 2)%nat ->
            ntohs (opp_port_no (osf_ports (data reply_two_numbers) i))
            = ntohs (opp_port_no (osf_ports (data reply_two_numbers) j)) ->
            port_name (osf_ports (data reply_two_numbers) i)
            = port_name (osf_ports (data reply_two_numbers) j)).
  { intros i j Hi Hj Hp.
    destruct i as [|[|i]], j as [|[|j]]; try lia; try reflexivity;
      vm_compute in Hp; discriminate. }
  assert (H4 : forall i n lp, (i < 2)%nat ->
            indexed (fst (lswitch_create [] (cfg LSW_LEARN 60) 100)) n lp ->
            port_no lp
            = ntohs (opp_port_no (osf_ports (data reply_two_numbers) i)) ->
            n = port_name (osf_ports (data reply_two_numbers) i)).
  { intros i n lp _ [Hin _]. vm_compute in Hin.
    by apply elem_of_nil in Hin. }
  split; [by repeat split |].
  exact (proj2 port_index_invariant _ [] 100 reply_two_numbers _
           eq_refl H0 H1 H2 H3 H4).
Defined.

(** ** Short messages *)

Lemma short_message_dropped_witness :
  ({| type := OFPT_PACKET_IN; min_size := offsetof_ofp_packet_in_data;
      handler := Some process_packet_in |} ∈ processors
   /\ oh_type (data short_packet_in) = OFPT_PACKET_IN
   /\ size short_packet_in < offsetof_ofp_packet_in_data
   /\ (datapath_id (fst (known LSW_LEARN 60)) <> 0
       \/ OFPT_PACKET_IN = OFPT_ECHO_REQUEST
       \/ OFPT_PACKET_IN = OFPT_FEATURES_REPLY))
  /\ lswitch_process_packet (fst (known LSW_LEARN 60)) [] 101
       short_packet_in
     = (fst (known LSW_LEARN 60), []).
Proof.
  assert (H1 : {| type := OFPT_PACKET_IN;
                  min_size := offsetof_ofp_packet_in_data;
                  handler := Some process_packet_in |} ∈ processors).
  { unfold processors. do 2 right. left. }
  assert (H3 : size short_packet_in < offsetof_ofp_packet_in_data)
    by reflexivity.
  assert (H4 : datapath_id (fst (known LSW_LEARN 60)) <> 0
               \/ OFPT_PACKET_IN = OFPT_ECHO_REQUEST
               \/ OFPT_PACKET_IN = OFPT_FEATURES_REPLY).
  { left. vm_compute. discriminate. }
  split; [by repeat split |].
  exact (short_message_dropped (fst (known LSW_LEARN 60)) [] 101
           short_packet_in _ H1 eq_refl H3 H4).
Defined.

(** ** A features-reply with datapath_id 0 *)

Lemma features_reply_zero_datapath_witness :
  (oh_type (data reply_zero_datapath) = OFPT_FEATURES_REPLY
   /\ sizeof_ofp_switch_features <= size reply_zero_datapath
   /\ check_ofp_message_array (data reply_zero_datapath) OFPT_FEATURES_REPLY
        sizeof_ofp_switch_features sizeof_ofp_phy_port = Some 1%nat
   /\ ntohll (osf_datapath_id (data reply_zero_datapath)) = 0)
  /\ datapath_id
       (fst (lswitch_process_packet
               (fst (lswitch_create [] (cfg LSW_LEARN 60) 100)) [] 100
               reply_zero_datapath)) = 0
  /\ same_queues
       (fold_left (resolve_port (data reply_zero_datapath)) (seq 0 1)
          (fst (lswitch_create [] (cfg LSW_LEARN 60) 100)))
       (fst (lswitch_process_packet
               (fst (lswitch_create [] (cfg LSW_LEARN 60) 100)) [] 100
               reply_zero_datapath))
  /\ (forall i lp,
        (i < 1)%nat ->
        queue_names (fst (lswitch_create [] (cfg LSW_LEARN 60) 100))
          !! port_name (osf_ports (data reply_zero_datapath) i) = Some lp ->
        hmap_node lp = false ->
        exists j, (j < 1)%nat
          /\ port_name (osf_ports (data reply_zero_datapath) j)
             = port_name (osf_ports (data reply_zero_datapath) i)
          /\ indexed
               (fst (lswitch_process_packet
                       (fst (lswitch_create [] (cfg LSW_LEARN 60) 100))
                       [] 100 reply_zero_datapath))
               (port_name (osf_ports (data reply_zero_datapath) i))
               {| hmap_node := true;
                  port_no :=
                    ntohs (opp_port_no
                             (osf_ports (data reply_zero_datapath) j));
                  queue_id := queue_id lp |}).
Proof.
  assert (H0 : sizeof_ofp_switch_features <= size reply_zero_datapath)
    by (vm_compute; discriminate).
  split; [by repeat split |].
  exact (features_reply_zero_datapath
           (fst (lswitch_create [] (cfg LSW_LEARN 60) 100)) [] 100
           reply_zero_datapath 1%nat eq_refl H0 eq_refl eq_refl).
Defined.

(** After that reply the session is still in the unknown state, and port
    5 has the queue of "eth0". *)
Lemma zero_datapath_reply_run :
  datapath_id
    (fst (lswitch_session (cfg LSW_LEARN 60) 100
            [Receive 100 reply_zero_datapath])) = 0
  /\ get_queue_id
       (fst (lswitch_session (cfg LSW_LEARN 60) 100
               [Receive 100 reply_zero_datapath])) 5 = 7.
Proof. vm_compute. done. Qed.

End Runs.

(** * Further properties of the switch *)

Section Further.
Context `{Collaborators}.

(** ** Dispatch *)

(** X1. An echo-request that holds a full header is answered in every
    state of the session, known datapath or not: one echo-reply built from
    the request is handed to the link and the session is left as it was. *)
Theorem echo_request_answered sw rc now msg :
  oh_type (data msg) = OFPT_ECHO_REQUEST ->
  sizeof_ofp_header <= size msg ->
  lswitch_process_packet sw rc now msg = (sw, rc ++ [Echo_reply (data msg)]).
Proof.
  intros Ht Hsz.
  assert (Hd : dispatch processors sw rc now msg
               = (sw, rc ++ [Echo_reply (data msg)])).
  { rewrite dispatch_echo_request by done.
    destruct (Z.ltb_spec (size msg) sizeof_ofp_header); [lia | done]. }
  destruct (decide (datapath_id sw = 0)) as [Hdp | Hdp].
  - rewrite lswitch_process_packet_unknown by done.
    rewrite Ht. apply Hd.
  - by rewrite lswitch_process_packet_known.
Qed.

Lemma dispatch_other sw rc now msg :
  oh_type (data msg) <> OFPT_ECHO_REQUEST ->
  oh_type (data msg) <> OFPT_FEATURES_REPLY ->
  oh_type (data msg) <> OFPT_PACKET_IN ->
  dispatch processors sw rc now msg = (sw, rc).
Proof.
  intros H1 H2 H3. unfold processors. cbn [dispatch type min_size handler].
  destruct (Z.eqb_spec (oh_type (data msg)) OFPT_ECHO_REQUEST); [done |].
  destruct (Z.eqb_spec (oh_type (data msg)) OFPT_FEATURES_REPLY); [done |].
  destruct (Z.eqb_spec (oh_type (data msg)) OFPT_PACKET_IN); [done |].
  destruct (oh_type (data msg) =? OFPT_FLOW_REMOVED); [| done].
  by destruct (size msg <? sizeof_ofp_flow_removed).
Qed.

(** X2. With a known datapath, a message of any type other than
    echo-request, features-reply and packet-in, flow-removed included and
    whatever its size, changes nothing and sends nothing. *)
Theorem other_types_ignored sw rc now msg :
  datapath_id sw <> 0 ->
  oh_type (data msg) <> OFPT_ECHO_REQUEST ->
  oh_type (data msg) <> OFPT_FEATURES_REPLY ->
  oh_type (data msg) <> OFPT_PACKET_IN ->
  lswitch_process_packet sw rc now msg = (sw, rc).
Proof.
  intros Hdp H1 H2 H3.
  rewrite lswitch_process_packet_known by done.
  by apply dispatch_other.
Qed.

(** ** The features-request throttle *)

Lemma lswitch_process_packet_resend sw rc now msg :
  datapath_id sw = 0 -> not_handshake msg ->
  lswitch_process_packet sw rc now msg = send_features_request sw rc now.
Proof.
  intros Hdp [H1 H2]. rewrite lswitch_process_packet_unknown by done.
  destruct (Z.eqb_spec (oh_type (data msg)) OFPT_ECHO_REQUEST); [done |].
  by destruct (Z.eqb_spec (oh_type (data msg)) OFPT_FEATURES_REPLY).
Qed.

(** A second request at a clock value not after the first sends nothing. *)
Lemma send_features_request_again sw rc rc' now now' :
  now' <= now ->
  send_features_request (fst (send_features_request sw rc now)) rc' now'
  = (fst (send_features_request sw rc now), rc').
Proof.
  intros Hle. unfold send_features_request at 2 3.
  destruct (Z.leb_spec (last_features_request sw + 1) now) as [Hl | Hl];
    unfold send_features_request; simpl.
  - destruct (Z.leb_spec (now + 1) now'); [lia | done].
  - destruct (Z.leb_spec (last_features_request sw + 1) now'); [lia | done].
Qed.

Lemma send_features_request_datapath_id sw rc now :
  datapath_id (fst (send_features_request sw rc now)) = datapath_id sw.
Proof. apply send_features_request_config. Qed.

(** X3. While the datapath is unknown, a burst of messages other than
    echo-request and features-reply that arrive at one clock value has the
    effect of a single call of [send_features_request]: at most one
    features-request and one set-config for the whole burst, and no other
    change to the session. *)
Theorem unknown_burst_one_request sw now msg msgs :
  datapath_id sw = 0 ->
  Forall not_handshake (msg :: msgs) ->
  fold_left lswitch_step (map (Receive now) (msg :: msgs)) (sw, [])
  = send_features_request sw [] now.
Proof.
  intros Hdp Hall. apply Forall_cons in Hall as [Hm Hall].
  simpl. rewrite lswitch_process_packet_resend by done.
  assert (Hrest : forall rc,
    fold_left lswitch_step (map (Receive now) msgs)
      (fst (send_features_request sw [] now), rc)
    = (fst (send_features_request sw [] now), rc)).
  { induction Hall as [|m ms Hm' _ IH]; intros rc; simpl; [done |].
    rewrite lswitch_process_packet_resend;
      [| by rewrite send_features_request_datapath_id | done].
    rewrite send_features_request_again by lia. apply IH. }
  destruct (send_features_request sw [] now) as [sw' rc']. apply Hrest.
Qed.

(** ** What a message can change *)

(** The five ways a message is taken up. *)
Lemma lswitch_process_packet_cases sw rc now msg :
  (datapath_id sw = 0 /\ not_handshake msg
   /\ lswitch_process_packet sw rc now msg = send_features_request sw rc now)
  \/ (oh_type (data msg) = OFPT_ECHO_REQUEST
      /\ lswitch_process_packet sw rc now msg
         = if size msg <? sizeof_ofp_header then (sw, rc)
           else (sw, rc ++ [Echo_reply (data msg)]))
  \/ (oh_type (data msg) = OFPT_FEATURES_REPLY
      /\ lswitch_process_packet sw rc now msg
         = if size msg <? sizeof_ofp_switch_features then (sw, rc)
           else process_switch_features sw rc now (data msg))
  \/ (datapath_id sw <> 0 /\ oh_type (data msg) = OFPT_PACKET_IN
      /\ lswitch_process_packet sw rc now msg
         = if size msg <? offsetof_ofp_packet_in_data then (sw, rc)
           else process_packet_in sw rc now (data msg))
  \/ (datapath_id sw <> 0 /\ not_handshake msg
      /\ oh_type (data msg) <> OFPT_PACKET_IN
      /\ lswitch_process_packet sw rc now msg = (sw, rc)).
Proof.
  destruct (decide (oh_type (data msg) = OFPT_ECHO_REQUEST)) as [He | He].
  { right; left. split; [done |].
    destruct (decide (datapath_id sw = 0)).
    - rewrite lswitch_process_packet_unknown by done. rewrite He.
      by rewrite dispatch_echo_request.
    - rewrite lswitch_process_packet_known by done.
      by rewrite dispatch_echo_request. }
  destruct (decide (oh_type (data msg) = OFPT_FEATURES_REPLY)) as [Hf | Hf].
  { right; right; left. split; [done |].
    destruct (decide (datapath_id sw = 0)).
    - rewrite lswitch_process_packet_unknown by done. rewrite Hf.
      by rewrite dispatch_features_reply.
    - rewrite lswitch_process_packet_known by done.
      by rewrite dispatch_features_reply. }
  destruct (decide (datapath_id sw = 0)) as [Hdp | Hdp].
  { left. split; [done |]. split; [done |].
    by apply lswitch_process_packet_resend. }
  destruct (decide (oh_type (data msg) = OFPT_PACKET_IN)) as [Hp | Hp].
  - right; right; right; left. split; [done |]. split; [done |].
    rewrite lswitch_process_packet_known by done.
    by rewrite dispatch_packet_in.
  - right; right; right; right. repeat split; try done.
    rewrite lswitch_process_packet_known by done.
    by apply dispatch_other.
Qed.

Lemma process_switch_features_ml sw rc now osf :
  ml (fst (process_switch_features sw rc now osf)) = ml sw.
Proof.
  unfold process_switch_features.
  destruct (check_ofp_message_array _ _ _ _); simpl; [| done].
  by rewrite resolve_ports_ml.
Qed.

Lemma send_features_request_ml sw rc now :
  ml (fst (send_features_request sw rc now)) = ml sw.
Proof. unfold send_features_request. by destruct (_ <=? now). Qed.

(** X4. The learning table changes in one case only: a packet-in with
    reason NO_MATCH that holds the fixed prefix, taken up with a known
    datapath, has the source address of its flow learned on the flow's
    ingress port, VLAN 0.  Any other message, and any message taken up
    while the datapath is unknown, leaves the table as it was. *)
Theorem learning_only_from_packet_in sw rc now msg :
  ml (fst (lswitch_process_packet sw rc now msg))
  = if decide (datapath_id sw <> 0
               /\ oh_type (data msg) = OFPT_PACKET_IN
               /\ offsetof_ofp_packet_in_data <= size msg
               /\ opi_reason (data msg) = OFPR_NO_MATCH)
    then (fun t =>
            fst (mac_learning_learn t now
                   (dl_src (opi_flow (data msg))) 0
                   (in_port (opi_flow (data msg))) GRAT_ARP_LOCK_NONE))
         <$> ml sw
    else ml sw.
Proof.
  destruct (decide _) as [(Hdp & Ht & Hsz & Hr) | Hno].
  - rewrite lswitch_process_packet_in, process_packet_in_state by done.
    rewrite Hr. replace (OFPR_NO_MATCH =? OFPR_NO_MATCH) with true
      by reflexivity.
    rewrite lswitch_choose_destination_state.
    destruct (ml sw) as [t|] eqn:Hml; simpl; [done | by rewrite Hml].
  - destruct (lswitch_process_packet_cases sw rc now msg)
      as [(_ & _ & ->) | [(_ & ->) | [(_ & ->) | [(Hdp & Ht & ->)
          | (_ & _ & _ & ->)]]]]; try done.
    + apply send_features_request_ml.
    + by destruct (size msg <? sizeof_ofp_header).
    + destruct (size msg <? sizeof_ofp_switch_features); [done |].
      apply process_switch_features_ml.
    + destruct (Z.ltb_spec (size msg) offsetof_ofp_packet_in_data);
        [done |].
      rewrite process_packet_in_state.
      destruct (Z.eqb_spec (opi_reason (data msg)) OFPR_NO_MATCH); [| done].
      exfalso. by apply Hno.
Qed.

Lemma process_packet_in_datapath_id sw rc now opi :
  datapath_id (fst (process_packet_in sw rc now opi)) = datapath_id sw.
Proof.
  rewrite process_packet_in_state.
  destruct (_ =? _); [apply lswitch_choose_destination_config | done].
Qed.

(** X5. [datapath_id] changes in one case only: a features-reply of full
    size that passes the message-array check sets it to the reply's
    datapath id.  A features-reply that fails the check changes nothing at
    all and sends nothing, and no features-reply ever sends anything. *)
Theorem datapath_id_only_from_features_reply sw rc now msg :
  datapath_id (fst (lswitch_process_packet sw rc now msg))
  = (if decide (oh_type (data msg) = OFPT_FEATURES_REPLY
                /\ sizeof_ofp_switch_features <= size msg
                /\ is_Some (check_ofp_message_array (data msg)
                              OFPT_FEATURES_REPLY sizeof_ofp_switch_features
                              sizeof_ofp_phy_port))
     then ntohll (osf_datapath_id (data msg))
     else datapath_id sw)
  /\ (oh_type (data msg) = OFPT_FEATURES_REPLY ->
      snd (lswitch_process_packet sw rc now msg) = rc
      /\ (check_ofp_message_array (data msg) OFPT_FEATURES_REPLY
            sizeof_ofp_switch_features sizeof_ofp_phy_port = None ->
          lswitch_process_packet sw rc now msg = (sw, rc))).
Proof.
  split.
  - destruct (decide _) as [(Ht & Hsz & [n Hchk]) | Hno].
    + rewrite lswitch_process_packet_features_reply by done.
      unfold process_switch_features. rewrite Hchk. simpl.
      by rewrite (proj2 (resolve_ports_config _ _ _)).
    + destruct (lswitch_process_packet_cases sw rc now msg)
        as [(_ & _ & ->) | [(_ & ->) | [(Ht & ->) | [(Hdp & _ & ->)
            | (_ & _ & _ & ->)]]]]; try done.
      * apply send_features_request_datapath_id.
      * by destruct (size msg <? sizeof_ofp_header).
      * destruct (Z.ltb_spec (size msg) sizeof_ofp_switch_features);
          [done |].
        unfold process_switch_features.
        destruct (check_ofp_message_array _ _ _ _) as [n|] eqn:Hchk;
          [| done].
        exfalso. apply Hno. split; [done | split; [done | by exists n]].
      * destruct (size msg <? offsetof_ofp_packet_in_data); [done |].
        apply process_packet_in_datapath_id.
  - intros Ht.
    destruct (lswitch_process_packet_cases sw rc now msg)
      as [(_ & [_ Hn] & _) | [(He & _) | [(_ & ->) | [(_ & Hp & _)
          | (_ & [_ Hn] & _)]]]]; try done.
    + rewrite Ht in He. discriminate He.
    + destruct (size msg <? sizeof_ofp_switch_features); [done |].
      split; [by rewrite process_switch_features_link |].
      intros Hchk. unfold process_switch_features. by rewrite Hchk.
    + rewrite Ht in Hp. discriminate Hp.
Qed.

(** ** The messages of a packet-in *)

Lemma process_packet_in_ignored sw rc now opi :
  opi_reason opi <> OFPR_NO_MATCH ->
  process_packet_in sw rc now opi = (sw, rc).
Proof.
  intros Hr. unfold process_packet_in.
  by destruct (Z.eqb_spec (opi_reason opi) OFPR_NO_MATCH).
Qed.

Lemma make_actions_shape out_port q :
  (out_port = OFPP_NONE /\ make_actions out_port q = ([], 0))
  \/ (out_port <> OFPP_NONE /\ (q = UINT32_MAX \/ OFPP_MAX <= out_port)
      /\ make_actions out_port q
         = ([OFPAT_OUTPUT out_port], sizeof_ofp_action_output))
  \/ (out_port <> OFPP_NONE /\ q <> UINT32_MAX /\ out_port < OFPP_MAX
      /\ make_actions out_port q
         = ([OFPAT_ENQUEUE out_port q], sizeof_ofp_action_enqueue)).
Proof.
  destruct (make_actions_cases out_port q) as (H1 & H2 & H3).
  destruct (decide (out_port = OFPP_NONE)) as [Hn | Hn]; [left; auto |].
  destruct (decide (q = UINT32_MAX)) as [Hq | Hq];
    [right; left; auto |].
  destruct (Z.le_gt_cases OFPP_MAX out_port) as [Hm | Hm];
    [right; left; auto |].
  right; right. repeat split; try done. by apply H3.
Qed.

(** X6. One packet-in makes the session send nothing, one flow-mod, one
    packet-out, or a flow-mod followed by a packet-out with the same
    actions: never more than two buffers, and never the packet-out first. *)
Theorem packet_in_messages sw now opi :
  let sent := snd (process_packet_in sw [] now opi) in
  sent = []
  \/ (exists m, sent = [m] /\ (is_add_flow m = true \/ is_packet_out m = true))
  \/ (exists m1 m2, sent = [m1; m2]
        /\ is_add_flow m1 = true /\ is_packet_out m2 = true
        /\ ofmsg_actions m1 = ofmsg_actions m2).
Proof.
  cbv zeta.
  destruct (decide (opi_reason opi = OFPR_NO_MATCH)) as [Hr | Hr];
    [| left; by rewrite process_packet_in_ignored].
  rewrite process_packet_in_sends by done. cbv zeta.
  destruct (_ && (_ || _)).
  - destruct (_ && _).
    + right; right. eexists _, _. by repeat split.
    + right; left. eexists. split; [done | by left].
  - destruct (_ || _).
    + right; left. eexists. split; [done | by right].
    + by left.
Qed.

(** X7. A packet-in with reason NO_MATCH that names a buffer is answered
    by exactly one message, a flow-mod or a packet-out, and that message
    names the same buffer, which the datapath then releases once. *)
Theorem buffered_packet_in_answered_once sw now opi :
  opi_reason opi = OFPR_NO_MATCH ->
  ntohl (opi_buffer_id opi) <> UINT32_MAX ->
  exists m, snd (process_packet_in sw [] now opi) = [m]
            /\ ofmsg_buffer_id m = Some (ntohl (opi_buffer_id opi)).
Proof.
  intros Hr Hb. rewrite process_packet_in_sends by done. cbv zeta.
  destruct (Z.eqb_spec (ntohl (opi_buffer_id opi)) UINT32_MAX); [done |].
  simpl. destruct (_ && (_ || _)); eexists; by split.
Qed.

(** X8. Every packet-out sent for a packet-in carries the packet of that
    packet-in, its ingress port and its buffer id, and it has something to
    do: a packet-out with neither an action nor a buffer is never sent. *)
Theorem packet_out_has_work sw now opi pkt b port acts n :
  Packet_out pkt b port acts n ∈ snd (process_packet_in sw [] now opi) ->
  pkt = opi_pkt opi
  /\ port = ntohs (opi_in_port opi)
  /\ b = ntohl (opi_buffer_id opi)
  /\ (acts <> [] \/ b <> UINT32_MAX).
Proof.
  destruct (decide (opi_reason opi = OFPR_NO_MATCH)) as [Hr | Hr]; cycle 1.
  { rewrite process_packet_in_ignored by done.
    intros Hin. by apply elem_of_nil in Hin. }
  rewrite process_packet_in_sends by done. cbv zeta.
  set (out_port := snd (lswitch_choose_destination sw now (opi_flow opi))).
  set (q := get_queue_id sw (ntohs (opi_in_port opi))).
  assert (Hlen : (0 <? snd (make_actions out_port q)) = true ->
                 fst (make_actions out_port q) <> []).
  { destruct (make_actions_shape out_port q)
      as [(_ & ->) | [(_ & _ & ->) | (_ & _ & _ & ->)]]; simpl; done. }
  destruct (_ && (_ || _)).
  - destruct (Z.eqb_spec (ntohl (opi_buffer_id opi)) UINT32_MAX) as [Hb | Hb];
      simpl.
    + destruct (0 <? snd (make_actions out_port q)) eqn:Hl; intros Hin;
        repeat (apply elem_of_cons in Hin as [[=] | Hin]);
        try (by apply elem_of_nil in Hin).
      subst. repeat split; try done. left. by apply Hlen.
    + intros Hin.
      repeat (apply elem_of_cons in Hin as [[=] | Hin]).
      by apply elem_of_nil in Hin.
  - destruct (Z.eqb_spec (ntohl (opi_buffer_id opi)) UINT32_MAX) as [Hb | Hb];
      simpl.
    + destruct (0 <? snd (make_actions out_port q)) eqn:Hl; intros Hin;
        repeat (apply elem_of_cons in Hin as [[=] | Hin]);
        try (by apply elem_of_nil in Hin).
      subst. repeat split; try done. left. by apply Hlen.
    + intros Hin.
      repeat (apply elem_of_cons in Hin as [[=] | Hin]);
        try (by apply elem_of_nil in Hin).
      subst. repeat split; try done. by right.
Qed.

(** X9. The lengths the session passes on agree with the actions it
    built: a flow-mod's [actions_len] is the byte size of its action list,
    a packet-out's [n_actions] counts the 8-byte headers that hold the list
    (two for an enqueue action), and the list never exceeds the two-header
    buffer [actions], which is what the assertion of [process_packet_in]
    checks. *)
Theorem action_lengths_agree sw now opi m :
  m ∈ snd (process_packet_in sw [] now opi) ->
  match m with
  | Add_flow _ _ _ al acts _ =>
      al = foldr Z.add 0 (map ofp_action_size acts)
      /\ al <= 2 * sizeof_ofp_action_header
  | Packet_out _ _ _ acts n =>
      n * sizeof_ofp_action_header = foldr Z.add 0 (map ofp_action_size acts)
      /\ n <= 2
  | _ => False
  end.
Proof.
  destruct (decide (opi_reason opi = OFPR_NO_MATCH)) as [Hr | Hr]; cycle 1.
  { rewrite process_packet_in_ignored by done.
    intros Hin. by apply elem_of_nil in Hin. }
  rewrite process_packet_in_sends by done. cbv zeta.
  set (out_port := snd (lswitch_choose_destination sw now (opi_flow opi))).
  set (q := get_queue_id sw (ntohs (opi_in_port opi))).
  destruct (make_actions_shape out_port q)
    as [(_ & ->) | [(_ & _ & ->) | (_ & _ & _ & ->)]]; simpl;
    repeat match goal with
           | |- context [if ?c then _ else _] => destruct c; simpl
           end;
    intros Hin;
    repeat (apply elem_of_cons in Hin as [-> | Hin]);
    try (by apply elem_of_nil in Hin);
    by vm_compute.
Qed.

(** ** The output port *)

(** X10. The output policy never chooses the port a frame came in on: for
    a frame from a physical port (below OFPP_MAX) the chosen port differs
    from the ingress port, whatever the learning table answers. *)
Theorem never_back_out_ingress sw now fl :
  in_port fl < OFPP_MAX ->
  snd (lswitch_choose_destination sw now fl) <> in_port fl.
Proof.
  intros Hphys. unfold lswitch_choose_destination.
  set (sw1 := match ml sw with Some _ => _ | None => _ end).
  assert (Hnone : OFPP_NONE <> in_port fl) by (unfold OFPP_MAX, OFPP_NONE in *; lia).
  assert (Hflood : OFPP_FLOOD <> in_port fl)
    by (unfold OFPP_MAX, OFPP_FLOOD in *; lia).
  assert (Hnormal : OFPP_NORMAL <> in_port fl)
    by (unfold OFPP_MAX, OFPP_NORMAL in *; lia).
  destruct (eth_addr_is_reserved (dl_dst fl)); [done |].
  destruct (ml sw1) as [t|].
  - destruct (0 <=? mac_learning_lookup t now (dl_dst fl) 0).
    + destruct (Z.eqb_spec (uint16_t (mac_learning_lookup t now (dl_dst fl) 0))
                  (in_port fl)); [done |].
      by destruct (_ && _).
    + by destruct (_ && _).
  - by destruct (_ && _).
Qed.

Lemma no_table_no_physical_port sw now fl :
  ml sw = None ->
  snd (lswitch_choose_destination sw now fl) = OFPP_NONE
  \/ snd (lswitch_choose_destination sw now fl) = OFPP_FLOOD.
Proof.
  intros Hml. rewrite lswitch_choose_destination_no_table by done.
  destruct (eth_addr_is_reserved _); auto.
Qed.

(** X11. An enqueue action is sent only for a learned physical port: its
    port is the chosen output port and lies below OFPP_MAX, its queue is
    the one looked up under the ingress port and is not NONE, and the
    session has a learning table.  A session without one (hub or normal
    mode) never enqueues, whatever queues are configured. *)
Theorem enqueue_only_learned sw now opi m acts p q :
  m ∈ snd (process_packet_in sw [] now opi) ->
  ofmsg_actions m = Some acts ->
  OFPAT_ENQUEUE p q ∈ acts ->
  p = snd (lswitch_choose_destination sw now (opi_flow opi))
  /\ p < OFPP_MAX
  /\ q = get_queue_id sw (ntohs (opi_in_port opi))
  /\ q <> UINT32_MAX
  /\ is_Some (ml sw).
Proof.
  intros Hm Hacts Henq.
  destruct (decide (opi_reason opi = OFPR_NO_MATCH)) as [Hr | Hr]; cycle 1.
  { rewrite process_packet_in_ignored in Hm by done.
    by apply elem_of_nil in Hm. }
  rewrite (process_packet_in_actions sw now opi m Hr Hm) in Hacts.
  injection Hacts as <-.
  set (out_port := snd (lswitch_choose_destination sw now (opi_flow opi)))
    in *.
  destruct (make_actions_shape out_port
              (get_queue_id sw (ntohs (opi_in_port opi))))
    as [(_ & He) | [(_ & _ & He) | (Hn & Hq & Hlt & He)]];
    rewrite He in Henq; simpl in Henq.
  - by apply elem_of_nil in Henq.
  - apply list_elem_of_singleton in Henq. discriminate Henq.
  - apply list_elem_of_singleton in Henq. injection Henq as -> ->.
    repeat split; try done.
    destruct (ml sw) as [t|] eqn:Hml; [by eexists |].
    exfalso. subst out_port.
    destruct (no_table_no_physical_port sw now (opi_flow opi) Hml)
      as [Hx | Hx]; rewrite Hx in *; [done |].
    unfold OFPP_FLOOD, OFPP_MAX in Hlt. lia.
Qed.

(** X12. A session with a learning table never installs a flood: no
    action of a flow-mod it sends goes to OFPP_FLOOD.  Floods are done by
    packet-out only, so that the next frame of the flow reaches the
    controller again. *)
Theorem learning_never_installs_flood sw now opi f b idle al acts w a :
  is_Some (ml sw) ->
  Add_flow f b idle al acts w ∈ snd (process_packet_in sw [] now opi) ->
  a ∈ acts ->
  ofp_action_port a <> OFPP_FLOOD.
Proof.
  intros Hml Hin Ha.
  destruct (decide (opi_reason opi = OFPR_NO_MATCH)) as [Hr | Hr]; cycle 1.
  { rewrite process_packet_in_ignored in Hin by done.
    by apply elem_of_nil in Hin. }
  pose proof (process_packet_in_actions sw now opi _ Hr Hin) as Hacts.
  simpl in Hacts. injection Hacts as ->.
  destruct (process_packet_in_add_flow sw now opi Hr) as [Hiff _].
  assert (Hex : Exists (fun m => is_add_flow m = true)
                  (snd (process_packet_in sw [] now opi))).
  { apply Exists_exists. eexists. split; [exact Hin | done]. }
  apply Hiff in Hex as [_ [Hnone | Hne]].
  { destruct Hml as [t Ht]. congruence. }
  set (out_port := snd (lswitch_choose_destination sw now (opi_flow opi)))
    in *.
  destruct (make_actions_shape out_port
              (get_queue_id sw (ntohs (opi_in_port opi))))
    as [(_ & He) | [(_ & _ & He) | (_ & _ & _ & He)]];
    rewrite He in Ha; simpl in Ha.
  - by apply elem_of_nil in Ha.
  - by apply list_elem_of_singleton in Ha as ->.
  - by apply list_elem_of_singleton in Ha as ->.
Qed.

(** ** The queue tables over a session *)

(** X13. Where distinct indexed bindings have distinct port numbers, the
    lookup by port number finds the binding resolved to that number: a
    packet-in from the port of an indexed binding gets that binding's
    queue. *)
Theorem get_queue_id_indexed sw n lp :
  distinct_port_numbers sw ->
  indexed sw n lp ->
  get_queue_id sw (port_no lp) = queue_id lp.
Proof.
  intros Hd [Hin Hn]. unfold get_queue_id.
  destruct (hmap_find_port_found (queue_names sw) (queue_numbers sw)
              (port_no lp) n lp Hin Hn eq_refl) as [lp' Hf].
  rewrite Hf.
  apply hmap_find_port_Some in Hf as (n' & Hin' & Hn' & Hp).
  destruct (decide (n' = n)) as [-> | Hne]; [congruence |].
  exfalso. by apply (Hd n' n lp' lp).
Qed.

Lemma indexed_same_queues sw sw' n lp :
  same_queues sw sw' -> indexed sw n lp -> indexed sw' n lp.
Proof. intros [Hn Hm] [Hi Hl]. split; [by rewrite Hn | by rewrite Hm]. Qed.

Lemma lswitch_run_queues sw now : same_queues sw (lswitch_run sw now).
Proof. unfold lswitch_run. by destruct (ml sw). Qed.

Lemma lswitch_step_keeps st e n lp :
  indexed (fst st) n lp -> hmap_node lp = true ->
  indexed (fst (lswitch_step st e)) n lp.
Proof.
  destruct st as [sw rc], e as [now msg | now]; simpl; intros Hi Hh.
  - destruct (decide (oh_type (data msg) = OFPT_FEATURES_REPLY)) as [Ht | Ht];
      [| by eapply indexed_same_queues;
           [apply lswitch_process_packet_queues |]].
    destruct (lswitch_process_packet_cases sw rc now msg)
      as [(_ & [_ Hn] & _) | [(He & _) | [(_ & ->) | [(_ & Hp & _)
          | (_ & [_ Hn] & _)]]]]; try done.
    + rewrite Ht in He. discriminate He.
    + destruct (size msg <? sizeof_ofp_switch_features); [done |].
      unfold process_switch_features.
      destruct (check_ofp_message_array _ _ _ _); simpl; [| done].
      by apply resolve_ports_keep.
    + rewrite Ht in Hp. discriminate Hp.
  - eapply indexed_same_queues; [apply lswitch_run_queues | done].
Qed.

(** X14. Once a binding is resolved it stays as it is for the rest of the
    session: whatever events follow, later features-replies included, the
    binding remains indexed under the port number it was first given. *)
Theorem resolved_binding_kept cfg now es es' n lp :
  indexed (fst (lswitch_session cfg now es)) n lp ->
  indexed (fst (lswitch_session cfg now (es ++ es'))) n lp.
Proof.
  intros Hi.
  assert (Hh : hmap_node lp = true).
  { destruct (lswitch_session_index_consistent cfg now es) as [_ Hiff].
    destruct Hi as [Hin Hn].
    apply Hiff in Hin as (lp' & Hn' & Hh). congruence. }
  unfold lswitch_session in *. rewrite fold_left_app.
  revert Hi. generalize (fold_left lswitch_step es (lswitch_create [] cfg now)).
  induction es' as [|e es' IH]; intros st Hi; simpl; [done |].
  by apply IH, lswitch_step_keeps.
Qed.

Lemma resolve_port_queue_ids osf sw i n :
  queue_id <$> queue_names (resolve_port osf sw i) !! n
  = queue_id <$> queue_names sw !! n.
Proof.
  destruct (resolve_port_cases osf sw i) as [-> | (lp & Hm & _ & ->)];
    [done |]. simpl.
  destruct (decide (port_name (osf_ports osf i) = n)) as [<- | Hne].
  - by rewrite lookup_insert_eq, Hm.
  - by rewrite lookup_insert_ne.
Qed.

Lemma resolve_ports_queue_ids osf l sw n :
  queue_id <$> queue_names (fold_left (resolve_port osf) l sw) !! n
  = queue_id <$> queue_names sw !! n.
Proof.
  revert sw. induction l as [|i l IH]; intros sw; simpl; [done |].
  by rewrite IH, resolve_port_queue_ids.
Qed.

Lemma lswitch_step_queue_ids st e n :
  queue_id <$> queue_names (fst (lswitch_step st e)) !! n
  = queue_id <$> queue_names (fst st) !! n.
Proof.
  destruct st as [sw rc], e as [now msg | now]; simpl.
  - destruct (decide (oh_type (data msg) = OFPT_FEATURES_REPLY)) as [Ht | Ht];
      [| by rewrite (proj2 (lswitch_process_packet_queues sw rc now msg Ht))].
    destruct (lswitch_process_packet_cases sw rc now msg)
      as [(_ & [_ Hn] & _) | [(He & _) | [(_ & ->) | [(_ & Hp & _)
          | (_ & [_ Hn] & _)]]]]; try done.
    + rewrite Ht in He. discriminate He.
    + destruct (size msg <? sizeof_ofp_switch_features); [done |].
      unfold process_switch_features.
      destruct (check_ofp_message_array _ _ _ _) as [k|]; simpl; [| done].
      by rewrite resolve_ports_queue_ids.
    + rewrite Ht in Hp. discriminate Hp.
  - by rewrite (proj2 (lswitch_run_queues sw now)).
Qed.

(** X15. The bindings of a session are those of its configuration for the
    whole session: the names are the configured port names and each
    binding keeps the configured queue number (as a 32-bit value); no event
    adds, removes or changes one.  So the queue the session picks for a
    port is always the default queue or a configured queue. *)
Theorem bindings_from_config cfg now es :
  let sw := fst (lswitch_session cfg now es) in
  (forall n,
     queue_id <$> queue_names sw !! n
     = match port_queues cfg with
       | Some pq => uint32_t <$> pq !! n
       | None => None
       end)
  /\ (forall p,
        get_queue_id sw p = cfg_default_queue cfg
        \/ exists pq n q, port_queues cfg = Some pq /\ pq !! n = Some q
                          /\ get_queue_id sw p = uint32_t q).
Proof.
  cbv zeta.
  assert (Hids : forall n,
    queue_id <$> queue_names (fst (lswitch_session cfg now es)) !! n
    = match port_queues cfg with
      | Some pq => uint32_t <$> pq !! n
      | None => None
      end).
  { intros n. unfold lswitch_session.
    assert (Hst : forall st,
      queue_id <$> queue_names (fst (fold_left lswitch_step es st)) !! n
      = queue_id <$> queue_names (fst st) !! n).
    { induction es as [|e es IH]; intros st; simpl; [done |].
      by rewrite IH, lswitch_step_queue_ids. }
    rewrite Hst. unfold lswitch_create, send_features_request.
    destruct (_ <=? now); simpl;
      (destruct (port_queues cfg) as [pq|];
       [rewrite lookup_fmap; by destruct (pq !! n)
       | by rewrite lookup_empty]). }
  split; [exact Hids |].
  intros p.
  destruct (lswitch_session_config cfg now es) as (_ & _ & Hdq & _).
  unfold get_queue_id.
  destruct (hmap_find_port _ _ p) as [lp|] eqn:Hf; [| by left].
  right. apply hmap_find_port_Some in Hf as (n & _ & Hn & _).
  specialize (Hids n). rewrite Hn in Hids. simpl in Hids.
  destruct (port_queues cfg) as [pq|]; [| done].
  destruct (pq !! n) as [q|] eqn:Hpq; [| done].
  injection Hids as Hids. exists pq, n, q. by rewrite Hids.
Qed.

(** ** Port names *)

Lemma c_str_length bs : (length (c_str bs) <= length bs)%nat.
Proof.
  induction bs as [|b bs IH]; simpl; [done |].
  destruct (Byte.eqb b x00); simpl; lia.
Qed.

Lemma port_name_length opp :
  (length (list_byte_of_string (port_name opp)) <= 15)%nat.
Proof.
  unfold port_name. rewrite list_byte_of_string_of_list_byte.
  etransitivity; [apply c_str_length |].
  rewrite length_firstn. unfold OFP_MAX_PORT_NAME_LEN. lia.
Qed.

Lemma c_str_no_nul bs : x00 ∉ c_str bs.
Proof.
  induction bs as [|b bs IH]; simpl; [apply not_elem_of_nil |].
  destruct (Byte.eqb b x00) eqn:Hb; [apply not_elem_of_nil |].
  apply not_elem_of_cons. split; [| done].
  intros <-. vm_compute in Hb. discriminate Hb.
Qed.

Lemma lswitch_step_numbers st e n :
  n ∈ queue_numbers (fst (lswitch_step st e)) ->
  n ∈ queue_numbers (fst st) \/ exists opp, n = port_name opp.
Proof.
  destruct st as [sw rc], e as [now msg | now]; simpl.
  - destruct (decide (oh_type (data msg) = OFPT_FEATURES_REPLY)) as [Ht | Ht];
      [| rewrite (proj1 (lswitch_process_packet_queues sw rc now msg Ht));
         by left].
    destruct (lswitch_process_packet_cases sw rc now msg)
      as [(_ & [_ Hn] & _) | [(He & _) | [(_ & ->) | [(_ & Hp & _)
          | (_ & [_ Hn] & _)]]]]; try done.
    + rewrite Ht in He. discriminate He.
    + destruct (size msg <? sizeof_ofp_switch_features); [by left |].
      unfold process_switch_features.
      destruct (check_ofp_message_array _ _ _ _) as [k|]; simpl;
        [| by left].
      generalize (seq 0 k). intros l.
      assert (Hgen : forall sw0,
        n ∈ queue_numbers (fold_left (resolve_port (data msg)) l sw0) ->
        n ∈ queue_numbers sw0 \/ exists opp, n = port_name opp).
      { induction l as [|i l IH]; intros sw0 Hin; simpl in Hin; [by left |].
        destruct (IH _ Hin) as [Hin' | Hex]; [| by right].
        destruct (resolve_port_cases (data msg) sw0 i)
          as [Heq | (lp & _ & _ & Heq)]; rewrite Heq in Hin';
          [by left |].
        simpl in Hin'. apply elem_of_hmap_insert in Hin' as [-> | Hin'];
          [right; by eexists | by left]. }
      intros Hin. by apply Hgen in Hin.
    + rewrite Ht in Hp. discriminate Hp.
  - rewrite (proj1 (lswitch_run_queues sw now)). by left.
Qed.

(** X16. Port names are matched as C strings of at most fifteen bytes,
    because the sixteenth byte of a reported name is overwritten with NUL
    before the lookup.  Every indexed binding has such a name, so a binding
    configured under a longer name, or under a name that holds a NUL byte,
    is never resolved by any features-reply. *)
Theorem long_names_never_resolved cfg now es n :
  (15 < length (list_byte_of_string n))%nat
  \/ x00 ∈ list_byte_of_string n ->
  n ∉ queue_numbers (fst (lswitch_session cfg now es)).
Proof.
  intros Hlong Hin.
  assert (Hname : exists opp, n = port_name opp).
  { unfold lswitch_session in Hin. revert Hin.
    assert (Hst : forall st,
      n ∈ queue_numbers (fst (fold_left lswitch_step es st)) ->
      n ∈ queue_numbers (fst st) \/ exists opp, n = port_name opp).
    { induction es as [|e es IH]; intros st Hin; simpl in Hin; [by left |].
      destruct (IH _ Hin) as [Hin' | Hex]; [| by right].
      by apply lswitch_step_numbers in Hin'. }
    intros Hin. destruct (Hst _ Hin) as [Hin' | Hex]; [| done].
    exfalso. revert Hin'.
    unfold lswitch_create, send_features_request.
    destruct (_ <=? now); simpl; apply not_elem_of_nil. }
  destruct Hname as [opp ->]. destruct Hlong as [Hlen | Hnul].
  - pose proof (port_name_length opp). lia.
  - unfold port_name in Hnul.
    rewrite list_byte_of_string_of_list_byte in Hnul.
    by apply c_str_no_nul in Hnul.
Qed.

(** ** Before the first features-reply *)

Lemma fold_lswitch_step_queues es st :
  Forall not_features_reply es ->
  same_queues (fst st) (fst (fold_left lswitch_step es st)).
Proof.
  intros Hall. revert st.
  induction Hall as [|e es He _ IH]; intros st; simpl; [done |].
  destruct (IH (lswitch_step st e)) as [Hn Hm].
  assert (Hstep : same_queues (fst st) (fst (lswitch_step st e))).
  { destruct st as [sw rc], e as [now msg | now]; simpl in *.
    - by apply lswitch_process_packet_queues.
    - apply lswitch_run_queues. }
  destruct Hstep as [Hn' Hm']. split; congruence.
Qed.

(** X17. Until a features-reply arrives, no port has a queue of its own:
    whatever else the session has received, every ingress port gets the
    configured default queue. *)
Theorem default_queue_before_features_reply cfg now es p :
  Forall not_features_reply es ->
  get_queue_id (fst (lswitch_session cfg now es)) p = cfg_default_queue cfg.
Proof.
  intros Hall. unfold lswitch_session.
  destruct (fold_lswitch_step_queues es (lswitch_create [] cfg now) Hall)
    as [Hn Hm].
  destruct (lswitch_session_config cfg now es) as (_ & _ & Hdq & _).
  unfold lswitch_session in Hdq.
  unfold get_queue_id. rewrite Hn, Hdq.
  replace (queue_numbers (fst (lswitch_create [] cfg now))) with
    (@nil string); [done |].
  unfold lswitch_create, send_features_request.
  by destruct (_ <=? now).
Qed.

(** ** The NORMAL action *)

(** X18. No session substitutes OFPP_NORMAL.  [lswitch_create] sets
    [action_normal] only for a session without a learning table, whose
    candidate is always FLOOD, and the substitution is made only for a
    candidate other than FLOOD.  So in every mode the chosen port is NONE,
    FLOOD, or the port the learning table answers for the destination. *)
Theorem normal_never_substituted cfg now0 es now fl :
  let sw := fst (lswitch_session cfg now0 es) in
  (action_normal sw = true -> ml sw = None)
  /\ (snd (lswitch_choose_destination sw now fl) = OFPP_NONE
      \/ snd (lswitch_choose_destination sw now fl) = OFPP_FLOOD
      \/ exists t,
           ml (fst (lswitch_choose_destination sw now fl)) = Some t
           /\ 0 <= mac_learning_lookup t now (dl_dst fl) 0
           /\ snd (lswitch_choose_destination sw now fl)
              = uint16_t (mac_learning_lookup t now (dl_dst fl) 0)).
Proof.
  cbv zeta. set (sw := fst (lswitch_session cfg now0 es)).
  destruct (lswitch_session_config cfg now0 es) as (_ & Han & _ & Hml & _).
  fold sw in Han, Hml.
  assert (Hexcl : action_normal sw = true -> ml sw = None).
  { rewrite Han. intros Hn%bool_decide_eq_true.
    destruct (ml sw) as [t|]; [| done].
    assert (mode cfg = LSW_LEARN) by (apply Hml; eauto). congruence. }
  split; [done |].
  destruct (ml sw) as [t0|] eqn:Ht0;
    [| destruct (no_table_no_physical_port sw now fl Ht0); auto].
  assert (Hoff : action_normal sw = false).
  { destruct (action_normal sw); [| done]. by specialize (Hexcl eq_refl). }
  rewrite lswitch_choose_destination_state, Ht0.
  unfold lswitch_choose_destination. rewrite Ht0.
  destruct (mac_learning_learn t0 now (dl_src fl) 0 (in_port fl)
              GRAT_ARP_LOCK_NONE) as [t' b]. simpl.
  destruct (eth_addr_is_reserved (dl_dst fl)); [by left |].
  destruct (Z.leb_spec 0 (mac_learning_lookup t' now (dl_dst fl) 0)).
  - destruct (_ =? in_port fl); [by left |].
    rewrite Hoff. simpl. right; right. by exists t'.
  - rewrite Hoff. simpl. by right; left.
Qed.

(** ** A known datapath *)

Lemma process_packet_in_types sw now opi m :
  m ∈ snd (process_packet_in sw [] now opi) ->
  ofmsg_type m = OFPT_FLOW_MOD \/ ofmsg_type m = OFPT_PACKET_OUT.
Proof.
  intros Hin.
  destruct (decide (opi_reason opi = OFPR_NO_MATCH)) as [Hr | Hr]; cycle 1.
  { rewrite process_packet_in_ignored in Hin by done.
    by apply elem_of_nil in Hin. }
  pose proof (process_packet_in_actions sw now opi m Hr Hin) as Hacts.
  destruct m; try discriminate Hacts; auto.
Qed.

(** X19. A session whose datapath is known sends no features-request and
    no set-config: every buffer it hands to the link for an inbound message
    is an echo-reply, a flow-mod or a packet-out. *)
Theorem known_session_no_request sw now msg m :
  datapath_id sw <> 0 ->
  m ∈ snd (lswitch_process_packet sw [] now msg) ->
  ofmsg_type m = OFPT_ECHO_REPLY
  \/ ofmsg_type m = OFPT_FLOW_MOD \/ ofmsg_type m = OFPT_PACKET_OUT.
Proof.
  intros Hdp.
  destruct (lswitch_process_packet_cases sw [] now msg)
    as [(Hz & _) | [(_ & ->) | [(_ & ->) | [(_ & _ & ->)
        | (_ & _ & _ & ->)]]]]; try done.
  - destruct (size msg <? sizeof_ofp_header); simpl; intros Hin.
    + by apply elem_of_nil in Hin.
    + apply list_elem_of_singleton in Hin as ->. by left.
  - destruct (size msg <? sizeof_ofp_switch_features); simpl.
    + intros Hin. by apply elem_of_nil in Hin.
    + rewrite process_switch_features_link. simpl.
      intros Hin. by apply elem_of_nil in Hin.
  - destruct (size msg <? offsetof_ofp_packet_in_data); simpl.
    + intros Hin. by apply elem_of_nil in Hin.
    + intros Hin. right. by eapply process_packet_in_types.
  - simpl. intros Hin. by apply elem_of_nil in Hin.
Qed.

End Further.

(** * Further concrete runs *)

Section FurtherRuns.
Import Samples MoreSamples.

Lemma echo_request_answered_witness :
  (oh_type (data echo_request_payload) = OFPT_ECHO_REQUEST
   /\ sizeof_ofp_header <= size echo_request_payload)
  /\ lswitch_process_packet (fst (lswitch_create [] (cfg LSW_LEARN 60) 100))
       [] 101 echo_request_payload
     = (fst (lswitch_create [] (cfg LSW_LEARN 60) 100),
        [] ++ [Echo_reply (data echo_request_payload)]).
Proof.
  assert (H2 : sizeof_ofp_header <= size echo_request_payload)
    by (vm_compute; discriminate).
  split; [by split |].
  exact (echo_request_answered _ [] 101 echo_request_payload eq_refl H2).
Defined.

Lemma other_types_ignored_witness :
  (datapath_id (fst (known LSW_LEARN 60)) <> 0
   /\ oh_type (data hello) <> OFPT_ECHO_REQUEST
   /\ oh_type (data hello) <> OFPT_FEATURES_REPLY
   /\ oh_type (data hello) <> OFPT_PACKET_IN)
  /\ lswitch_process_packet (fst (known LSW_LEARN 60)) [] 101 hello
     = (fst (known LSW_LEARN 60), []).
Proof.
  assert (H1 : datapath_id (fst (known LSW_LEARN 60)) <> 0)
    by (vm_compute; discriminate).
  assert (H2 : oh_type (data hello) <> OFPT_ECHO_REQUEST)
    by (vm_compute; discriminate).
  assert (H3 : oh_type (data hello) <> OFPT_FEATURES_REPLY)
    by (vm_compute; discriminate).
  assert (H4 : oh_type (data hello) <> OFPT_PACKET_IN)
    by (vm_compute; discriminate).
  split; [by repeat split |].
  exact (other_types_ignored _ [] 101 hello H1 H2 H3 H4).
Defined.

Lemma unknown_burst_one_request_witness :
  (datapath_id (fst (lswitch_create [] (cfg LSW_LEARN 60) 100)) = 0
   /\ Forall not_handshake [packet_in_a_b; hello; packet_in_a_b])
  /\ fold_left lswitch_step
       (map (Receive 105) [packet_in_a_b; hello; packet_in_a_b])
       (fst (lswitch_create [] (cfg LSW_LEARN 60) 100), [])
     = send_features_request
         (fst (lswitch_create [] (cfg LSW_LEARN 60) 100)) [] 105.
Proof.
  assert (H2 : Forall not_handshake [packet_in_a_b; hello; packet_in_a_b]).
  { repeat constructor; vm_compute; discriminate. }
  split; [by split |].
  exact (unknown_burst_one_request
           (fst (lswitch_create [] (cfg LSW_LEARN 60) 100)) 105 _ _
           eq_refl H2).
Defined.

(** The burst of three sends one features-request and one set-config. *)
Lemma unknown_burst_run :
  snd (fold_left lswitch_step
         (map (Receive 105) [packet_in_a_b; hello; packet_in_a_b])
         (fst (lswitch_create [] (cfg LSW_LEARN 60) 100), []))
  = [Features_request; Set_config 128].
Proof. vm_compute. reflexivity. Qed.

Lemma datapath_id_only_from_features_reply_witness :
  (oh_type (data reply_bad_length) = OFPT_FEATURES_REPLY
   /\ check_ofp_message_array (data reply_bad_length) OFPT_FEATURES_REPLY
        sizeof_ofp_switch_features sizeof_ofp_phy_port = None)
  /\ lswitch_process_packet (fst (known LSW_LEARN 60)) [] 101
       reply_bad_length
     = (fst (known LSW_LEARN 60), []).
Proof.
  split; [by split |].
  exact (proj2 (proj2 (datapath_id_only_from_features_reply
                         (fst (known LSW_LEARN 60)) [] 101 reply_bad_length)
                  eq_refl) eq_refl).
Defined.

Lemma buffered_packet_in_answered_once_witness :
  (opi_reason (data packet_in_buffered) = OFPR_NO_MATCH
   /\ ntohl (opi_buffer_id (data packet_in_buffered)) <> UINT32_MAX)
  /\ exists m,
       snd (process_packet_in (fst (known LSW_LEARN 60)) [] 101
              (data packet_in_buffered)) = [m]
       /\ ofmsg_buffer_id m
          = Some (ntohl (opi_buffer_id (data packet_in_buffered))).
Proof.
  assert (H2 : ntohl (opi_buffer_id (data packet_in_buffered)) <> UINT32_MAX)
    by (vm_compute; discriminate).
  split; [by split |].
  exact (buffered_packet_in_answered_once (fst (known LSW_LEARN 60)) 101
           (data packet_in_buffered) eq_refl H2).
Defined.

Lemma packet_out_has_work_witness :
  enqueue_packet_out
    ∈ snd (process_packet_in learned [] 102 (data packet_in_a_b_port5))
  /\ mk_ofpbuf (frame mac_b mac_a) = opi_pkt (data packet_in_a_b_port5)
  /\ 5 = ntohs (opi_in_port (data packet_in_a_b_port5))
  /\ UINT32_MAX = ntohl (opi_buffer_id (data packet_in_a_b_port5))
  /\ ([OFPAT_ENQUEUE 1 7] <> [] \/ UINT32_MAX <> UINT32_MAX).
Proof.
  assert (H1 : enqueue_packet_out
               ∈ snd (process_packet_in learned [] 102
                        (data packet_in_a_b_port5))).
  { vm_compute. right. left. }
  split; [done |].
  exact (packet_out_has_work learned 102 (data packet_in_a_b_port5)
           _ _ _ _ _ H1).
Defined.

Lemma action_lengths_agree_witness :
  enqueue_packet_out
    ∈ snd (process_packet_in learned [] 102 (data packet_in_a_b_port5))
  /\ 2 * sizeof_ofp_action_header
     = foldr Z.add 0 (map ofp_action_size [OFPAT_ENQUEUE 1 7])
  /\ 2 <= 2.
Proof.
  assert (H1 : enqueue_packet_out
               ∈ snd (process_packet_in learned [] 102
                        (data packet_in_a_b_port5))).
  { vm_compute. right. left. }
  split; [done |].
  exact (action_lengths_agree learned 102 (data packet_in_a_b_port5)
           enqueue_packet_out H1).
Defined.

Lemma never_back_out_ingress_witness :
  in_port flow_a_b < OFPP_MAX
  /\ snd (lswitch_choose_destination learned 102 flow_a_b)
     <> in_port flow_a_b.
Proof.
  assert (H1 : in_port flow_a_b < OFPP_MAX) by reflexivity.
  split; [done |].
  exact (never_back_out_ingress learned 102 flow_a_b H1).
Defined.

Lemma enqueue_only_learned_witness :
  (enqueue_flow_mod
     ∈ snd (process_packet_in learned [] 102 (data packet_in_a_b_port5))
   /\ ofmsg_actions enqueue_flow_mod = Some [OFPAT_ENQUEUE 1 7]
   /\ OFPAT_ENQUEUE 1 7 ∈ [OFPAT_ENQUEUE 1 7])
  /\ 1 = snd (lswitch_choose_destination learned 102
                (opi_flow (data packet_in_a_b_port5)))
  /\ 1 < OFPP_MAX
  /\ 7 = get_queue_id learned (ntohs (opi_in_port (data packet_in_a_b_port5)))
  /\ 7 <> UINT32_MAX
  /\ is_Some (ml learned).
Proof.
  assert (H1 : enqueue_flow_mod
               ∈ snd (process_packet_in learned [] 102
                        (data packet_in_a_b_port5))).
  { vm_compute. left. }
  assert (H3 : OFPAT_ENQUEUE 1 7 ∈ [OFPAT_ENQUEUE 1 7]) by left.
  split; [by repeat split |].
  exact (enqueue_only_learned learned 102 (data packet_in_a_b_port5)
           enqueue_flow_mod _ 1 7 H1 eq_refl H3).
Defined.

Lemma learning_never_installs_flood_witness :
  (is_Some (ml learned)
   /\ enqueue_flow_mod
        ∈ snd (process_packet_in learned [] 102 (data packet_in_a_b_port5))
   /\ OFPAT_ENQUEUE 1 7 ∈ [OFPAT_ENQUEUE 1 7])
  /\ ofp_action_port (OFPAT_ENQUEUE 1 7) <> OFPP_FLOOD.
Proof.
  assert (H1 : is_Some (ml learned)) by (vm_compute; eauto).
  assert (H2 : enqueue_flow_mod
               ∈ snd (process_packet_in learned [] 102
                        (data packet_in_a_b_port5))).
  { vm_compute. left. }
  assert (H3 : OFPAT_ENQUEUE 1 7 ∈ [OFPAT_ENQUEUE 1 7]) by left.
  split; [by repeat split |].
  exact (learning_never_installs_flood learned 102
           (data packet_in_a_b_port5) _ _ _ _ _ _ (OFPAT_ENQUEUE 1 7)
           H1 H2 H3).
Defined.

Lemma get_queue_id_indexed_witness :
  (distinct_port_numbers learned
   /\ indexed learned "eth0"
        {| hmap_node := true; port_no := 5; queue_id := 7 |})
  /\ get_queue_id learned 5 = 7.
Proof.
  assert (H1 : distinct_port_numbers learned).
  { intros n1 n2 lp1 lp2 [Hi1 _] [Hi2 _] Hne.
    vm_compute in Hi1, Hi2.
    apply list_elem_of_singleton in Hi1, Hi2. congruence. }
  assert (H2 : indexed learned "eth0"
                 {| hmap_node := true; port_no := 5; queue_id := 7 |}).
  { split; vm_compute; [left | reflexivity]. }
  split; [by split |].
  exact (get_queue_id_indexed learned "eth0" _ H1 H2).
Defined.

(** "eth0" was resolved to port 5; a later features-reply that lists it as
    port 9 does not renumber it. *)
Lemma resolved_binding_kept_witness :
  indexed (fst (lswitch_session (cfg LSW_LEARN 60) 100 handshake)) "eth0"
    {| hmap_node := true; port_no := 5; queue_id := 7 |}
  /\ indexed
       (fst (lswitch_session (cfg LSW_LEARN 60) 100
               (handshake ++ [Receive 101 reply_renumbered]))) "eth0"
       {| hmap_node := true; port_no := 5; queue_id := 7 |}.
Proof.
  assert (H1 : indexed
                 (fst (lswitch_session (cfg LSW_LEARN 60) 100 handshake))
                 "eth0" {| hmap_node := true; port_no := 5; queue_id := 7 |}).
  { split; vm_compute; [left | reflexivity]. }
  split; [done |].
  exact (resolved_binding_kept (cfg LSW_LEARN 60) 100 handshake
           [Receive 101 reply_renumbered] "eth0" _ H1).
Defined.

(** A binding under a name of sixteen characters is not resolved by a
    features-reply that lists a port of that name. *)
Lemma long_names_never_resolved_witness :
  ((15 < length (list_byte_of_string "abcdefghijklmnop"))%nat
   \/ x00 ∈ list_byte_of_string "abcdefghijklmnop")
  /\ "abcdefghijklmnop"%string
     ∉ queue_numbers
         (fst (lswitch_session cfg_long_name 100
                 [Receive 100 reply_long_name])).
Proof.
  assert (H1 : (15 < length (list_byte_of_string "abcdefghijklmnop"))%nat
               \/ x00 ∈ list_byte_of_string "abcdefghijklmnop").
  { left. vm_compute. lia. }
  split; [done |].
  exact (long_names_never_resolved cfg_long_name 100
           [Receive 100 reply_long_name] "abcdefghijklmnop" H1).
Defined.

Lemma default_queue_before_features_reply_witness :
  Forall not_features_reply
    [Receive 100 echo_request; Run 101; Receive 102 packet_in_a_b]
  /\ get_queue_id
       (fst (lswitch_session (cfg LSW_LEARN 60) 100
               [Receive 100 echo_request; Run 101; Receive 102 packet_in_a_b]))
       5
     = cfg_default_queue (cfg LSW_LEARN 60).
Proof.
  assert (H1 : Forall not_features_reply
                 [Receive 100 echo_request; Run 101;
                  Receive 102 packet_in_a_b]).
  { repeat constructor; vm_compute; discriminate. }
  split; [done |].
  exact (default_queue_before_features_reply (cfg LSW_LEARN 60) 100 _ 5 H1).
Defined.

Lemma normal_never_substituted_witness :
  action_normal (fst (lswitch_session (cfg LSW_NORMAL 60) 100 handshake))
  = true
  /\ ml (fst (lswitch_session (cfg LSW_NORMAL 60) 100 handshake)) = None.
Proof.
  assert (H1 : action_normal
                 (fst (lswitch_session (cfg LSW_NORMAL 60) 100 handshake))
               = true) by reflexivity.
  split; [done |].
  exact (proj1 (normal_never_substituted (cfg LSW_NORMAL 60) 100 handshake
                  101 flow_a_b) H1).
Defined.

Lemma known_session_no_request_witness :
  (datapath_id (fst (known LSW_LEARN 60)) <> 0
   /\ Packet_out (mk_ofpbuf (frame mac_b mac_a)) UINT32_MAX 1
        [OFPAT_OUTPUT OFPP_FLOOD] 1
      ∈ snd (lswitch_process_packet (fst (known LSW_LEARN 60)) [] 101
               packet_in_a_b))
  /\ (OFPT_PACKET_OUT = OFPT_ECHO_REPLY
      \/ OFPT_PACKET_OUT = OFPT_FLOW_MOD
      \/ OFPT_PACKET_OUT = OFPT_PACKET_OUT).
Proof.
  assert (H1 : datapath_id (fst (known LSW_LEARN 60)) <> 0)
    by (vm_compute; discriminate).
  assert (H2 : Packet_out (mk_ofpbuf (frame mac_b mac_a)) UINT32_MAX 1
                 [OFPAT_OUTPUT OFPP_FLOOD] 1
               ∈ snd (lswitch_process_packet (fst (known LSW_LEARN 60)) []
                        101 packet_in_a_b)).
  { vm_compute. left. }
  split; [by split |].
  exact (known_session_no_request (fst (known LSW_LEARN 60)) 101 packet_in_a_b
           _ H1 H2).
Defined.

End FurtherRuns.
